(** * openfermion.hamiltonians: the package initialiser as an import program

    [src/openfermion/hamiltonians/__init__.py] consists of six
    [from .<submodule> import (<names>)] statements and nothing else.  The
    statements are embedded as data ([init_py]) and run by a small
    interpreter of Python's import protocol: the module cache
    ([sys.modules]), the execution of a submodule's body on its first
    import, the binding of the submodule as an attribute of its parent
    package, the name-by-name [IMPORT_FROM]/[STORE_NAME] sequence of a
    from-import, and the removal of a module from the cache when its body
    raises.

    The bodies of the six submodules are not part of the file.  They are a
    parameter [body]: run in a world, a body defines a namespace or raises,
    and leaves a world.  A body is taken not to touch the module cache or
    the namespace of the package: the imports a body makes itself, of a
    sibling submodule or of another package, are not represented, and
    nothing is stated here that rests on their absence.  The six submodules
    are taken to be plain modules, so that a name is looked up in the
    namespace of its submodule only.  The parent package [openfermion] is
    outside the model: its own import, and the binding of [hamiltonians] in
    it after a load that returns, are left out.  The log of the state is
    not program state; it records what the interpreter does, so that order
    can be stated. *)

From Stdlib Require Import Ascii String.
From stdpp Require Import gmap strings list fin_maps sets.

Local Open Scope string_scope.
Local Open Scope list_scope.

(** ** Objects, namespaces, exceptions *)

(** A Python object is known by its identity.  A module object is known by
    the key under which [sys.modules] holds it: the entries of the
    submodules are never replaced once made. *)
Inductive value :=
  | VObj (id : positive)
  | VModule (qualname : string).

#[global] Instance value_eq_dec : EqDecision value.
Proof. solve_decision. Defined.

(** A module's [__dict__]. *)
Abbreviation namespace := (gmap string value).

Inductive exn :=
  | CannotImportName (n modname : string)
      (* ImportError: cannot import name n from modname *)
  | Exn (id : positive).
      (* any exception object raised while a submodule's body runs *)

#[global] Instance exn_eq_dec : EqDecision exn.
Proof. solve_decision. Defined.

Inductive outcome (A : Type) :=
  | Return (a : A)
  | Raise (e : exn).
Arguments Return {A} a.
Arguments Raise {A} e.

(** What the interpreter logs while the package body runs. *)
Inductive event :=
  | EImport (sub : string)   (* IMPORT_NAME of [.sub] is executed *)
  | EInit (sub : string)     (* the body of [sub] has run to completion *)
  | EBind (n : string).      (* STORE_NAME n in the package namespace *)

#[global] Instance event_eq_dec : EqDecision event.
Proof. solve_decision. Defined.

(** ** The source file *)

Record from_import := FromImport {
  fi_module : string;       (* the submodule, without the leading dot *)
  fi_names : list string    (* the imported names, in textual order *)
}.

Definition package : string := "openfermion.hamiltonians".

Definition init_py : list from_import :=
  [ FromImport "_chemical_series"
      ["make_atomic_ring"; "make_atomic_lattice"; "make_atom"];
    FromImport "_hubbard"
      ["fermi_hubbard"];
    FromImport "_jellium"
      ["dual_basis_kinetic"; "dual_basis_potential";
       "dual_basis_jellium_model"; "jellium_model";
       "jordan_wigner_dual_basis_jellium"; "plane_wave_kinetic";
       "plane_wave_potential"];
    FromImport "_mean_field_dwave"
      ["mean_field_dwave"];
    FromImport "_molecular_data"
      ["MolecularData"; "periodic_table"];
    FromImport "_plane_wave_hamiltonian"
      ["dual_basis_external_potential"; "fourier_transform";
       "inverse_fourier_transform"; "plane_wave_external_potential";
       "plane_wave_hamiltonian"; "jordan_wigner_dual_basis_hamiltonian";
       "wigner_seitz_length_scale"] ].

(** The submodules the file imports from, the names it binds, and each
    name with the submodule it comes from. *)
Definition submodules (prog : list from_import) : list string :=
  map fi_module prog.

Definition imported_names (prog : list from_import) : list string :=
  prog ≫= fi_names.

Definition origins (prog : list from_import) : list (string * string) :=
  prog ≫= fun st => pair (fi_module st) <$> fi_names st.

(** Every name a run of the program may store in the package namespace:
    the submodule itself, then the names imported from it. *)
Definition targets (prog : list from_import) : list string :=
  prog ≫= fun st => fi_module st :: fi_names st.

(** The list of section 6 of the specification, in its words. *)
Definition listed_names : list string :=
  ["make_atomic_ring"; "make_atomic_lattice"; "make_atom"; "fermi_hubbard";
   "dual_basis_kinetic"; "dual_basis_potential"; "dual_basis_jellium_model";
   "jellium_model"; "jordan_wigner_dual_basis_jellium"; "plane_wave_kinetic";
   "plane_wave_potential"; "mean_field_dwave"; "MolecularData";
   "periodic_table"; "dual_basis_external_potential"; "fourier_transform";
   "inverse_fourier_transform"; "plane_wave_external_potential";
   "plane_wave_hamiltonian"; "jordan_wigner_dual_basis_hamiltonian";
   "wigner_seitz_length_scale"].

(** The six internal submodules as the specification names them. *)
Definition listed_submodules : list string :=
  ["_chemical_series"; "_hubbard"; "_jellium"; "_mean_field_dwave";
   "_molecular_data"; "_plane_wave_hamiltonian"].

(** ** Interpreter state *)

Record state (W : Type) := State {
  sys_modules : gmap string namespace;  (* qualified name -> module dict *)
  world : W;                            (* everything else a body can touch *)
  trace : list event
}.
Arguments State {W} _ _ _.
Arguments sys_modules {W} _.
Arguments world {W} _.
Arguments trace {W} _.

(** Computations that read and write the state and may raise. *)
Definition imp (W A : Type) : Type := state W -> outcome A * state W.

Definition ret {W A} (a : A) : imp W A := fun s => (Return a, s).

Definition raise {W A} (e : exn) : imp W A := fun s => (Raise e, s).

Definition bind {W A B} (m : imp W A) (k : A -> imp W B) : imp W B :=
  fun s =>
    match m s with
    | (Return a, s1) => k a s1
    | (Raise e, s1) => (Raise e, s1)
    end.

Declare Scope imp_scope.
Delimit Scope imp_scope with imp.
Notation "x <~ m ;; k" := (bind m (fun x => k))
  (at level 100, m at next level, right associativity) : imp_scope.
Notation "m ;;; k" := (bind m (fun _ => k))
  (at level 100, right associativity) : imp_scope.

(** [for x in l: f x], stopping at the first exception. *)
Fixpoint for_each {W A} (f : A -> imp W unit) (l : list A) : imp W unit :=
  match l with
  | [] => ret tt
  | x :: l' => (f x ;;; for_each f l')%imp
  end.

(** The attributes the import machinery and [exec] give a package module
    before its first statement runs (CPython 3; Python 2 sets fewer, also
    all of the form [__x__]). *)
Definition module_attr_names : list string :=
  ["__name__"; "__doc__"; "__package__"; "__loader__"; "__spec__";
   "__path__"; "__file__"; "__cached__"; "__builtins__"].

Definition qualname (sub : string) : string := package +:+ "." +:+ sub.

(** [from package import *] when the package has no [__all__]: every name
    that does not begin with an underscore. *)
Definition is_private (n : string) : bool :=
  match n with
  | String c _ => bool_decide (c = "_"%char)
  | EmptyString => false
  end.

Definition wildcard_names (ns : namespace) : option (gset string) :=
  match ns !! "__all__" with
  | Some _ => None   (* the names come from the list object; not modelled *)
  | None => Some (filter (fun n => is_private n = false) (dom ns))
  end.

Section Interp.
Context {W : Type}.

(** Running the body of a submodule in the current world: the namespace it
    defines, or the exception it raises, and the world it leaves. *)
Variable body : string -> W -> outcome namespace * W.

(** Fresh values of the module attributes (strings, loader, spec, ...). *)
Variable attr_value : string -> value.

Definition module_attrs : namespace :=
  list_to_map (map (fun n => (n, attr_value n)) module_attr_names).

Definition log (e : event) (s : state W) : state W :=
  State (sys_modules s) (world s) (trace s ++ [e]).

(** [setattr(sys.modules[m], n, v)] *)
Definition setattr (m n : string) (v : value) (s : state W) : state W :=
  State (alter (insert n v) m (sys_modules s)) (world s) (trace s).

Definition getattr (s : state W) (m n : string) : option value :=
  sys_modules s !! m ≫= (.!! n).

(** The first import of [sub] has run its body, which defined [m] and left
    the world [w]: the module is cached, then bound as an attribute of
    the package. *)
Definition initialised (sub : string) (m : namespace) (w : W)
    (s : state W) : state W :=
  log (EInit sub)
    (setattr package sub (VModule (qualname sub))
       (State (<[qualname sub := m]> (sys_modules s)) w (trace s))).

(** [importlib._bootstrap._find_and_load] for the submodule [sub] of the
    package: a cached module is returned as it is; otherwise the body
    runs, and on success the module is cached and bound as an attribute
    of the package.  A body that raises leaves no cache entry.  The body is
    given the world only: what it would itself import is not modelled. *)
Definition import_submodule (sub : string) : imp W namespace := fun s =>
  let s := log (EImport sub) s in
  match sys_modules s !! qualname sub with
  | Some m => (Return m, s)
  | None =>
      match body sub (world s) with
      | (Raise e, w) => (Raise e, State (sys_modules s) w (trace s))
      | (Return m, w) => (Return m, initialised sub m w s)
      end
  end.

(** IMPORT_FROM n; STORE_NAME n *)
Definition import_from (sub : string) (m : namespace) (n : string)
  : imp W unit :=
  match m !! n with
  | None => raise (CannotImportName n (qualname sub))
  | Some v => fun s => (Return tt, log (EBind n) (setattr package n v s))
  end.

Definition exec_from_import (st : from_import) : imp W unit :=
  (m <~ import_submodule (fi_module st) ;;
   for_each (import_from (fi_module st) m) (fi_names st))%imp.

Definition exec_module (prog : list from_import) : imp W unit :=
  for_each exec_from_import prog.

Definition register (s : state W) : state W :=
  State (<[package := module_attrs]> (sys_modules s)) (world s) (trace s).

Definition unregister (s : state W) : state W :=
  State (delete package (sys_modules s)) (world s) (trace s).

(** [import openfermion.hamiltonians]: a cached package is returned as it
    is; otherwise a new module is put in the cache, [__init__.py] runs in
    it, and an exception takes the module out of the cache again before
    it propagates.  The step of [_find_and_load_unlocked] that concerns the
    parent package (importing [openfermion], binding [hamiltonians] in it)
    is not modelled. *)
Definition import_package : imp W value := fun s =>
  match sys_modules s !! package with
  | Some _ => (Return (VModule package), s)
  | None =>
      match exec_module init_py (register s) with
      | (Return _, s') => (Return (VModule package), s')
      | (Raise e, s') => (Raise e, unregister s')
      end
  end.

(** The package namespace, empty while the package is not loaded. *)
Definition package_ns (s : state W) : namespace :=
  default ∅ (sys_modules s !! package).

End Interp.

Arguments module_attrs attr_value : assert.

(** ** Two concrete interpreters

    The world is a counter of the bodies run so far; an object built by a
    body gets an identity that depends on the counter, so a body run twice
    builds new objects. *)

Definition defines (w : nat) (names : list string) : namespace :=
  list_to_map
    (imap (fun i n => (n, VObj (Pos.of_succ_nat (100 * w + i)))) names).

(** What the six submodules define: the imported names, and in
    [_molecular_data] one more public name. *)
Definition ex_sources : list from_import :=
  map (fun st =>
         if decide (fi_module st = "_molecular_data")
         then FromImport (fi_module st) (fi_names st ++ ["name_molecule"])
         else st)
      init_py.

Definition ex_body (sub : string) (w : nat) : outcome namespace * nat :=
  match find (fun st => bool_decide (fi_module st = sub)) ex_sources with
  | Some st => (Return (defines w (fi_names st)), S w)
  | None => (Raise (Exn 1), w)           (* no such module *)
  end.

(** The same submodules, but the last one raises the first time it is run
    in a new interpreter (after the five others), and runs well later. *)
Definition flaky_body (sub : string) (w : nat) : outcome namespace * nat :=
  if decide (sub = "_plane_wave_hamiltonian" ∧ w = 5)
  then (Raise (Exn 7), S w)
  else ex_body sub w.

(** [_hubbard] does not define [fermi_hubbard]. *)
Definition broken_body (sub : string) (w : nat) : outcome namespace * nat :=
  if decide (sub = "_hubbard")
  then (Return (defines w ["hubbard"]), S w)
  else ex_body sub w.

Definition ex_attr (n : string) : value := VObj 1.

(** A new interpreter: nothing imported yet. *)
Definition s0 : state nat := State ∅ 0 [].

(** The same, with a module of another package already imported and some
    history in the log. *)
Definition s0' : state nat :=
  State {[ "openfermion.ops" := defines 9 ["FermionOperator"] ]} 0
        [EImport "ops"].

(** The same submodules again, with bodies that leave the world alone. *)
Definition quiet_body (sub : string) (w : nat) : outcome namespace * nat :=
  ((ex_body sub 0).1, w).

(** Like [ex_body] on the six submodules, another module anywhere else. *)
Definition other_body (sub : string) (w : nat) : outcome namespace * nat :=
  if decide (sub ∈ listed_submodules) then ex_body sub w
  else (Return (defines w ["unrelated"]), w).

(** A running interpreter whose world is [42]. *)
Definition s42 : state nat := State ∅ 42 [].

(** ** The log of a successful run

    What the statement [st] adds to the log when it returns, given the
    module cache at the start: the import, the initialisation of the
    submodule unless it was cached, then one binding per name. *)
Definition statement_events (cache : gmap string namespace)
    (st : from_import) : list event :=
  EImport (fi_module st)
    :: match cache !! qualname (fi_module st) with
       | Some _ => []
       | None => [EInit (fi_module st)]
       end
    ++ (EBind <$> fi_names st).

Definition module_events (cache : gmap string namespace)
    (prog : list from_import) : list event :=
  prog ≫= statement_events cache.

(** [a] occurs in the log [t], and [b] occurs later. *)
Definition before (a b : event) (t : list event) : Prop :=
  ∃ t1 t2 t3, t = t1 ++ a :: t2 ++ b :: t3.

Definition imports_of (t : list event) : list string :=
  omap (fun e => match e with EImport sub => Some sub | _ => None end) t.

Definition inits_of (t : list event) : list string :=
  omap (fun e => match e with EInit sub => Some sub | _ => None end) t.

Definition binds_of (t : list event) : list string :=
  omap (fun e => match e with EBind n => Some n | _ => None end) t.

(** ** What a computation leaves alone

    Each relation says which part of the state a step keeps; all of them
    are preorders, so they pass through sequences of steps. *)

Section Frames.
Context {W : Type}.
Implicit Types s : state W.

(** Cache entries outside [K] are as before. *)
Definition keeps_modules (K : list string) s s' : Prop :=
  ∀ k, k ∉ K → sys_modules s' !! k = sys_modules s !! k.

(** A cached module other than the package stays cached, unchanged. *)
Definition keeps_cached s s' : Prop :=
  ∀ k m, k ≠ package →
    sys_modules s !! k = Some m → sys_modules s' !! k = Some m.

(** The package is in the cache after the step iff it was before. *)
Definition keeps_loaded s s' : Prop :=
  is_Some (sys_modules s !! package) ↔ is_Some (sys_modules s' !! package).

(** Names of the package namespace outside [T] are bound as before. *)
Definition keeps_names (T : list string) s s' : Prop :=
  ∀ n, n ∉ T → package_ns s' !! n = package_ns s !! n.

(** A property of the world that holds before holds after. *)
Definition keeps_world (P : W → Prop) s s' : Prop :=
  P (world s) → P (world s').

(** The step only adds events to the log. *)
Definition extends_trace s s' : Prop :=
  ∃ t, trace s' = trace s ++ t.
End Frames.

(** ** Statements about a load *)

(** Going from the namespace [ns0] to [ns], only names of [names] were
    added. *)
Definition binds_only (names : list string) (ns0 ns : namespace) : Prop :=
  ∀ n, n ∈ dom ns → n ∉ dom ns0 → n ∈ names.

(** Every public symbol of each of the submodules [subs] is bound in the
    package, under its name, to the same object. *)
Definition reexports_all {W} (subs : list string) (s : state W) : Prop :=
  ∀ sub S v, sub ∈ subs → is_private S = false →
    getattr s (qualname sub) S = Some v → getattr s package S = Some v.

(** Every symbol the program imports is bound in the package, under its
    name, to the same object as in the submodule the program takes it
    from. *)
Definition reexports_imported {W} (prog : list from_import) (s : state W)
    : Prop :=
  ∀ st S, st ∈ prog → S ∈ fi_names st →
    ∃ v, getattr s (qualname (fi_module st)) S = Some v ∧
         getattr s package S = Some v.

(** Nothing but the package's own cache entry differs between [s] and
    [s']. *)
Definition only_namespace_changes {W} (s s' : state W) : Prop :=
  world s' = world s ∧
  ∀ k, k ≠ package → sys_modules s' !! k = sys_modules s !! k.

(** [k] further imports of the package after a first one that ended in
    [r]. *)
Definition reimport {W} (import : imp W value) (k : nat)
    (r : outcome value * state W) : outcome value * state W :=
  Nat.iter k (fun r => import r.2) r.

(** The import of the submodule of [st] fails with [e] in the state [s]:
    its body, run because the submodule is not cached, raises [e]; or the
    submodule lacks one of the names of [st], and [e] is the import error
    for the first such name. *)
Definition import_fails {W} (body : string → W → outcome namespace * W)
    (st : from_import) (s : state W) (e : exn) : Prop :=
  (sys_modules s !! qualname (fi_module st) = None ∧
   (body (fi_module st) (world s)).1 = Raise e) ∨
  (∃ m pre n post,
     (sys_modules s !! qualname (fi_module st) = Some m ∨
      sys_modules s !! qualname (fi_module st) = None ∧
      (body (fi_module st) (world s)).1 = Return m) ∧
     fi_names st = pre ++ n :: post ∧
     (∀ n', n' ∈ pre → is_Some (m !! n')) ∧
     m !! n = None ∧
     e = CannotImportName n (qualname (fi_module st))).

(** Two states give the file the same environment: the same world, the
    same package entry, the same entries for the submodules [subs].  The
    log and the rest of the cache may differ. *)
Definition agree {W} (subs : list string) (s1 s2 : state W) : Prop :=
  world s1 = world s2 ∧
  sys_modules s1 !! package = sys_modules s2 !! package ∧
  ∀ sub, sub ∈ subs →
    sys_modules s1 !! qualname sub = sys_modules s2 !! qualname sub.

(** Run from related states, two computations end alike in related
    states. *)
Definition simulates {W A} (R : relation (state W)) (m1 m2 : imp W A)
    : Prop :=
  ∀ s1 s2, R s1 s2 → (m1 s1).1 = (m2 s2).1 ∧ R (m1 s1).2 (m2 s2).2.

(** Each of the submodules [subs] is an attribute of the package, bound
    to the module. *)
Definition submodules_bound {W} (subs : list string) (s : state W) : Prop :=
  ∀ sub, sub ∈ subs → getattr s package sub = Some (VModule (qualname sub)).

(** ** What a load needs *)

(** The module namespace [m] binds every one of [names]. *)
Definition defines_names (m : namespace) (names : list string) : Prop :=
  ∀ n, n ∈ names → is_Some (m !! n).

(** The statement [st] cannot fail in a state whose cache is that of [s]:
    its submodule is cached and binds the names, or it is not cached and
    its body, in whatever world, returns a namespace that binds them. *)
Definition submodule_ready {W} (body : string → W → outcome namespace * W)
    (st : from_import) (s : state W) : Prop :=
  match sys_modules s !! qualname (fi_module st) with
  | Some m => defines_names m (fi_names st)
  | None => ∀ w, ∃ m, (body (fi_module st) w).1 = Return m ∧
                      defines_names m (fi_names st)
  end.

(** * Properties *)

(** ** Names *)

Lemma qualname_ne_package sub : qualname sub ≠ package.
Proof.
  unfold qualname. intros H.
  change (package +:+ "." +:+ sub = package +:+ "") in H.
  apply (inj (String.append package)) in H. discriminate H.
Qed.

Lemma qualname_inj sub1 sub2 : qualname sub1 = qualname sub2 → sub1 = sub2.
Proof.
  unfold qualname. intros H.
  apply (inj (String.append package)) in H.
  by apply (inj (String.append ".")) in H.
Qed.

Lemma origins_init_py : (origins init_py).*2 = listed_names.
Proof. reflexivity. Qed.

Lemma imported_names_init_py : imported_names init_py = listed_names.
Proof. reflexivity. Qed.

Lemma submodules_init_py : submodules init_py = listed_submodules.
Proof. reflexivity. Qed.

Lemma targets_init_py_NoDup : NoDup (targets init_py).
Proof. apply (bool_decide_unpack _). by vm_compute. Qed.

Lemma elem_of_origins prog sub n :
  (sub, n) ∈ origins prog ↔
  ∃ st, st ∈ prog ∧ fi_module st = sub ∧ n ∈ fi_names st.
Proof.
  unfold origins. rewrite list_elem_of_bind. split.
  - intros (st & Hin & Hst).
    apply list_elem_of_fmap in Hin as (n' & Heq & Hn').
    injection Heq as -> ->. eauto.
  - intros (st & Hst & <- & Hn). exists st. split; [|done].
    apply list_elem_of_fmap. by exists n.
Qed.

Lemma elem_of_targets prog n :
  n ∈ targets prog ↔
  ∃ st, st ∈ prog ∧ (n = fi_module st ∨ n ∈ fi_names st).
Proof.
  unfold targets. rewrite list_elem_of_bind. split.
  - intros (st & Hin & Hst). exists st. by rewrite elem_of_cons in Hin.
  - intros (st & Hst & Hn). exists st. by rewrite elem_of_cons.
Qed.

(** ** The monad *)

Section Monad.
Context {W : Type}.
Implicit Types s : state W.

Lemma bind_Return {A B} (m : imp W A) (k : A → imp W B) s b s' :
  bind m k s = (Return b, s') ↔
  ∃ a s1, m s = (Return a, s1) ∧ k a s1 = (Return b, s').
Proof.
  unfold bind. destruct (m s) as [[a|e] s1]; split.
  - eauto.
  - by intros (a' & s1' & [= -> ->] & Hk).
  - discriminate.
  - by intros (a' & s1' & [=] & _).
Qed.

Lemma bind_Raise {A B} (m : imp W A) (k : A → imp W B) s e s' :
  bind m k s = (Raise e, s') ↔
  m s = (Raise e, s') ∨
  ∃ a s1, m s = (Return a, s1) ∧ k a s1 = (Raise e, s').
Proof.
  unfold bind. destruct (m s) as [[a|e'] s1]; split.
  - eauto.
  - by intros [[=] | (a' & s1' & [= -> ->] & Hk)].
  - intros [= -> ->]. by left.
  - by intros [[= -> ->] | (a' & s1' & [=] & _)].
Qed.

Lemma bind_preserves (R : relation (state W)) `{!PreOrder R}
    {A B} (m : imp W A) (k : A → imp W B) :
  (∀ s, R s (m s).2) → (∀ a s, R s (k a s).2) → ∀ s, R s (bind m k s).2.
Proof.
  intros Hm Hk s. unfold bind. specialize (Hm s).
  destruct (m s) as [[a|e] s1]; simpl in *; [|done].
  by etrans; [|apply Hk].
Qed.

Lemma for_each_preserves (R : relation (state W)) `{!PreOrder R}
    {A} (f : A → imp W unit) (l : list A) :
  (∀ x, x ∈ l → ∀ s, R s (f x s).2) → ∀ s, R s (for_each f l s).2.
Proof.
  induction l as [|x l IH]; intros Hf s; simpl; [done|].
  apply bind_preserves; [done| |].
  - apply Hf. by left.
  - intros _. apply IH. intros y Hy. apply Hf. by right.
Qed.

Lemma for_each_cons_Return {A} (f : A → imp W unit) x l s s' :
  for_each f (x :: l) s = (Return tt, s') ↔
  ∃ s1, f x s = (Return tt, s1) ∧ for_each f l s1 = (Return tt, s').
Proof.
  simpl. rewrite bind_Return. split.
  - intros ([] & s1 & ? & ?). eauto.
  - intros (s1 & ? & ?). by exists tt, s1.
Qed.

(** A loop raises exactly when one of its steps does, after the steps
    before it have returned; the steps after it are not run. *)
Lemma for_each_Raise {A} (f : A → imp W unit) l s e s' :
  for_each f l s = (Raise e, s') ↔
  ∃ pre x post s1, l = pre ++ x :: post ∧
    for_each f pre s = (Return tt, s1) ∧ f x s1 = (Raise e, s').
Proof.
  revert s. induction l as [|x l IH]; intros s; simpl.
  - split; [discriminate|]. intros (pre & y & post & _ & Hl & _).
    by destruct pre.
  - rewrite bind_Raise. split.
    + intros [Hx | ([] & s1 & Hx & Hl)].
      * by exists [], x, l, s.
      * apply IH in Hl as (pre & y & post & s2 & -> & Hpre & Hy).
        exists (x :: pre), y, post, s2. split; [done|]. split; [|done].
        apply for_each_cons_Return. eauto.
    + intros (pre & y & post & s1 & Heq & Hpre & Hy).
      destruct pre as [|z pre]; simplify_eq/=.
      * unfold ret in Hpre. simplify_eq. by left.
      * right. apply bind_Return in Hpre as ([] & s2 & Hz & Hpre).
        exists tt, s2. split; [done|]. apply IH.
        by exists pre, y, post, s1.
Qed.

#[global] Instance keeps_modules_po K : PreOrder (@keeps_modules W K).
Proof.
  split; [by intros s k|].
  intros s1 s2 s3 H12 H23 k Hk. by rewrite H23, H12.
Qed.

#[global] Instance keeps_cached_po : PreOrder (@keeps_cached W).
Proof. split; [by intros s k|]. intros s1 s2 s3 H12 H23 k m ??; eauto. Qed.

#[global] Instance keeps_loaded_po : PreOrder (@keeps_loaded W).
Proof.
  unfold keeps_loaded. split; [by intros s|].
  intros s1 s2 s3 H12 H23. by rewrite H12.
Qed.

#[global] Instance keeps_names_po T : PreOrder (@keeps_names W T).
Proof.
  split; [by intros s k|].
  intros s1 s2 s3 H12 H23 k Hk. by rewrite H23, H12.
Qed.

#[global] Instance keeps_world_po P : PreOrder (@keeps_world W P).
Proof. unfold keeps_world. split; [by intros s|]. intros s1 s2 s3; eauto. Qed.

#[global] Instance extends_trace_po : PreOrder (@extends_trace W).
Proof.
  split; [intros s; exists []; by rewrite app_nil_r|].
  intros s1 s2 s3 [t1 H1] [t2 H2]. exists (t1 ++ t2).
  by rewrite H2, H1, app_assoc.
Qed.

Lemma keeps_modules_weaken K K' s s' :
  K ⊆ K' → keeps_modules K s s' → keeps_modules K' s s'.
Proof. intros HK H k Hk. apply H. intros Hin. by apply Hk, HK. Qed.

Lemma keeps_names_weaken T T' s s' :
  T ⊆ T' → keeps_names T s s' → keeps_names T' s s'.
Proof. intros HT H n Hn. apply H. intros Hin. by apply Hn, HT. Qed.
End Monad.

(** ** The steps of the interpreter *)

Section Steps.
Context {W : Type}.
Implicit Types s : state W.

Lemma package_ns_setattr s n v k :
  package_ns (setattr package n v s) !! k =
  if decide (n = k) then const v <$> sys_modules s !! package
  else package_ns s !! k.
Proof.
  unfold package_ns, setattr; simpl. rewrite lookup_alter_eq.
  destruct (sys_modules s !! package) as [ns|]; simpl.
  - rewrite lookup_insert. by case_decide.
  - by case_decide.
Qed.

Lemma package_ns_insert_ne s k m (w : W) t :
  k ≠ package →
  package_ns (State (<[k := m]> (sys_modules s)) w t) = package_ns s.
Proof. intros Hk. unfold package_ns; simpl. by rewrite lookup_insert_ne. Qed.

(** *** [import_from] *)

Lemma import_from_modules sub m n s :
  keeps_modules [package] s (import_from sub m n s).2.
Proof.
  unfold import_from, raise. destruct (m !! n); simpl; [|done].
  intros k Hk; simpl. rewrite lookup_alter_ne; [done|].
  intros <-. apply Hk. by left.
Qed.

Lemma import_from_cached sub m n s :
  keeps_cached s (import_from sub m n s).2.
Proof.
  unfold import_from, raise. destruct (m !! n); simpl; [|done].
  intros k m' Hk Hm'; simpl. by rewrite lookup_alter_ne.
Qed.

Lemma import_from_loaded sub m n s :
  keeps_loaded s (import_from sub m n s).2.
Proof.
  unfold import_from, raise, keeps_loaded. destruct (m !! n); simpl; [|done].
  rewrite lookup_alter_eq. by rewrite fmap_is_Some.
Qed.

Lemma import_from_names sub m n s :
  keeps_names [n] s (import_from sub m n s).2.
Proof.
  unfold import_from, raise. destruct (m !! n) as [v|]; simpl; [|done].
  intros k Hk. change (package_ns (setattr package n v s) !! k = package_ns s !! k).
  rewrite package_ns_setattr. case_decide; [|done].
  subst k. destruct Hk. by left.
Qed.

Lemma import_from_world P sub m n s :
  keeps_world P s (import_from sub m n s).2.
Proof. unfold import_from, raise, keeps_world. by destruct (m !! n). Qed.

Lemma import_from_trace sub m n s :
  extends_trace s (import_from sub m n s).2.
Proof.
  unfold import_from, raise. destruct (m !! n); simpl; [by eexists|reflexivity].
Qed.

Lemma import_from_Return sub m n s s' :
  import_from sub m n s = (Return tt, s') ↔
  ∃ v, m !! n = Some v ∧ s' = log (EBind n) (setattr package n v s).
Proof.
  unfold import_from, raise. destruct (m !! n) as [v|]; split.
  - intros [= <-]. eauto.
  - by intros (v' & [= <-] & ->).
  - discriminate.
  - by intros (v' & [=] & _).
Qed.

Lemma import_from_Raise sub m n s e s' :
  import_from sub m n s = (Raise e, s') ↔
  m !! n = None ∧ e = CannotImportName n (qualname sub) ∧ s' = s.
Proof.
  unfold import_from, raise. destruct (m !! n) as [v|]; split.
  - discriminate.
  - by intros ([=] & _).
  - by intros [= <- <-].
  - by intros (_ & -> & ->).
Qed.
End Steps.

Section SubmoduleOutcome.
Context {W : Type}.
Variable body : string → W → outcome namespace * W.
Implicit Types s : state W.

Lemma import_submodule_Return sub s m s' :
  import_submodule body sub s = (Return m, s') ↔
  (sys_modules s !! qualname sub = Some m ∧ s' = log (EImport sub) s) ∨
  (sys_modules s !! qualname sub = None ∧
   ∃ w, body sub (world s) = (Return m, w) ∧
        s' = initialised sub m w (log (EImport sub) s)).
Proof.
  unfold import_submodule; simpl.
  destruct (sys_modules s !! qualname sub) as [m'|].
  { split; [intros [= -> <-]; by left|]. by intros [[[= ->] ->]|[[=] _]]. }
  destruct (body sub (world s)) as [[m'|e] w]; split.
  - intros [= -> <-]. right. eauto.
  - by intros [[[=] _]|[_ (w' & [= -> ->] & ->)]].
  - discriminate.
  - by intros [[[=] _]|[_ (w' & [=] & _)]].
Qed.

Lemma import_submodule_Raise sub s e s' :
  import_submodule body sub s = (Raise e, s') ↔
  sys_modules s !! qualname sub = None ∧
  ∃ w, body sub (world s) = (Raise e, w) ∧
       s' = State (sys_modules s) w (trace s ++ [EImport sub]).
Proof.
  unfold import_submodule; simpl.
  destruct (sys_modules s !! qualname sub) as [m'|].
  { split; [discriminate|]. by intros [[=] _]. }
  destruct (body sub (world s)) as [[m'|e'] w]; split.
  - discriminate.
  - by intros [_ (w' & [=] & _)].
  - intros [= -> <-]. eauto.
  - by intros [_ (w' & [= -> ->] & ->)].
Qed.
End SubmoduleOutcome.

(** The three ways an import of a submodule ends: it was cached, its body
    ran and returned, its body raised. *)
Ltac submodule_cases body sub s w :=
  let H := fresh "H" in
  destruct (import_submodule body sub s) as [[?m|?e] ?s'] eqn:H; simpl;
  [apply import_submodule_Return in H as [[_ ->]|[? (w & ? & ->)]]
  |apply import_submodule_Raise in H as [_ (w & ? & ->)]].

(** A step that leaves the part of the state in question as it is. *)
Ltac frame_same :=
  first [ done
        | by (unfold keeps_loaded, keeps_world, extends_trace; simpl)
        | by (repeat intro; simpl in *) ].

Section Submodule.
Context {W : Type}.
Variable body : string → W → outcome namespace * W.
Implicit Types s : state W.

(** Whatever its outcome, the import of a submodule touches two cache
    entries at most, keeps what is cached, and binds one name at most. *)
Lemma import_submodule_modules sub s :
  keeps_modules [package; qualname sub] s (import_submodule body sub s).2.
Proof.
  submodule_cases body sub s w; [frame_same| |frame_same].
  intros k Hk; simpl.
  rewrite lookup_alter_ne, lookup_insert_ne; [done|..];
    intros <-; apply Hk; [by right; left|by left].
Qed.

Lemma import_submodule_cached sub s :
  keeps_cached s (import_submodule body sub s).2.
Proof.
  submodule_cases body sub s w; [frame_same| |frame_same].
  intros k m' Hk Hm'; simpl.
  rewrite lookup_alter_ne, lookup_insert_ne; [done|congruence|done].
Qed.

Lemma import_submodule_loaded sub s :
  keeps_loaded s (import_submodule body sub s).2.
Proof.
  submodule_cases body sub s w; [frame_same| |frame_same].
  unfold keeps_loaded; simpl.
  rewrite lookup_alter_eq, fmap_is_Some, lookup_insert_ne; [done|].
  apply qualname_ne_package.
Qed.

Lemma package_ns_initialised sub m w s k :
  package_ns (initialised sub m w s) !! k =
  if decide (sub = k)
  then const (VModule (qualname sub)) <$> sys_modules s !! package
  else package_ns s !! k.
Proof.
  unfold initialised.
  change (package_ns (log ?e ?s)) with (package_ns s).
  rewrite package_ns_setattr; simpl.
  rewrite lookup_insert_ne by apply qualname_ne_package.
  case_decide; [done|]. apply (f_equal (.!! k)), package_ns_insert_ne.
  apply qualname_ne_package.
Qed.

Lemma import_submodule_names sub s :
  keeps_names [sub] s (import_submodule body sub s).2.
Proof.
  submodule_cases body sub s w; [frame_same| |frame_same].
  intros k Hk. rewrite package_ns_initialised.
  case_decide; [|done]. subst k. destruct Hk. by left.
Qed.

Lemma import_submodule_world (P : W → Prop) sub s :
  (∀ w, P w → P (body sub w).2) →
  keeps_world P s (import_submodule body sub s).2.
Proof.
  intros HP. unfold keeps_world.
  submodule_cases body sub s w; [done|..];
    intros Hw; apply HP in Hw;
    by match goal with Hb : body _ _ = _ |- _ => rewrite Hb in Hw end.
Qed.

Lemma import_submodule_trace sub s :
  extends_trace s (import_submodule body sub s).2.
Proof.
  submodule_cases body sub s w; simpl.
  - by eexists.
  - eexists; simpl. by rewrite <-app_assoc.
  - by eexists.
Qed.
End Submodule.

(** ** One statement, then the whole file *)

Section Statements.
Context {W : Type}.
Variable body : string → W → outcome namespace * W.
Implicit Types (s : state W) (st : from_import) (prog : list from_import).

Lemma import_names_preserves (R : relation (state W)) `{!PreOrder R}
    sub m names :
  (∀ n, n ∈ names → ∀ s, R s (import_from sub m n s).2) →
  ∀ s, R s (for_each (import_from sub m) names s).2.
Proof. by apply for_each_preserves. Qed.

Lemma exec_from_import_preserves (R : relation (state W)) `{!PreOrder R} st :
  (∀ s, R s (import_submodule body (fi_module st) s).2) →
  (∀ m n, n ∈ fi_names st → ∀ s, R s (import_from (fi_module st) m n s).2) →
  ∀ s, R s (exec_from_import body st s).2.
Proof.
  intros Hsub Hfrom. unfold exec_from_import.
  apply bind_preserves; [done|done|].
  intros m. apply import_names_preserves; [done|]. intros n. apply Hfrom.
Qed.

Lemma exec_module_preserves (R : relation (state W)) `{!PreOrder R} prog :
  (∀ st, st ∈ prog → ∀ s, R s (exec_from_import body st s).2) →
  ∀ s, R s (exec_module body prog s).2.
Proof. by apply for_each_preserves. Qed.

Lemma exec_from_import_modules st s :
  keeps_modules [package; qualname (fi_module st)] s
    (exec_from_import body st s).2.
Proof.
  apply (exec_from_import_preserves (keeps_modules [package; qualname (fi_module st)])).
  - apply import_submodule_modules.
  - intros m n _ s1. eapply keeps_modules_weaken, import_from_modules.
    intros k ->%list_elem_of_singleton. by left.
Qed.

Lemma exec_from_import_cached st s :
  keeps_cached s (exec_from_import body st s).2.
Proof.
  apply (exec_from_import_preserves keeps_cached).
  - apply import_submodule_cached.
  - intros m n _. apply import_from_cached.
Qed.

Lemma exec_from_import_loaded st s :
  keeps_loaded s (exec_from_import body st s).2.
Proof.
  apply (exec_from_import_preserves keeps_loaded).
  - apply import_submodule_loaded.
  - intros m n _. apply import_from_loaded.
Qed.

Lemma exec_from_import_names st s :
  keeps_names (fi_module st :: fi_names st) s (exec_from_import body st s).2.
Proof.
  apply (exec_from_import_preserves (keeps_names (fi_module st :: fi_names st))).
  - intros s1. eapply keeps_names_weaken, import_submodule_names.
    intros k ->%list_elem_of_singleton. by left.
  - intros m n Hn s1. eapply keeps_names_weaken, import_from_names.
    intros k ->%list_elem_of_singleton. by right.
Qed.

Lemma exec_from_import_world (P : W → Prop) st s :
  (∀ w, P w → P (body (fi_module st) w).2) →
  keeps_world P s (exec_from_import body st s).2.
Proof.
  intros HP. apply (exec_from_import_preserves (keeps_world P)).
  - intros s1. by apply import_submodule_world.
  - intros m n _. apply import_from_world.
Qed.

Lemma exec_from_import_trace st s :
  extends_trace s (exec_from_import body st s).2.
Proof.
  apply (exec_from_import_preserves extends_trace).
  - apply import_submodule_trace.
  - intros m n _. apply import_from_trace.
Qed.

Lemma exec_module_modules prog s :
  keeps_modules (package :: (qualname <$> submodules prog)) s
    (exec_module body prog s).2.
Proof.
  apply (exec_module_preserves (keeps_modules (package :: (qualname <$> submodules prog)))). intros st Hst s1.
  eapply keeps_modules_weaken, exec_from_import_modules.
  intros k [->|[->|[]%elem_of_nil]%elem_of_cons]%elem_of_cons; [by left|].
  right. apply list_elem_of_fmap. exists (fi_module st). split; [done|].
  apply list_elem_of_fmap. by exists st.
Qed.

Lemma exec_module_cached prog s :
  keeps_cached s (exec_module body prog s).2.
Proof.
  apply (exec_module_preserves keeps_cached).
  intros st _. apply exec_from_import_cached.
Qed.

Lemma exec_module_loaded prog s :
  keeps_loaded s (exec_module body prog s).2.
Proof.
  apply (exec_module_preserves keeps_loaded).
  intros st _. apply exec_from_import_loaded.
Qed.

Lemma exec_module_names prog s :
  keeps_names (targets prog) s (exec_module body prog s).2.
Proof.
  apply (exec_module_preserves (keeps_names (targets prog))). intros st Hst s1.
  eapply keeps_names_weaken, exec_from_import_names.
  intros n Hn. apply elem_of_targets. exists st. split; [done|].
  by apply elem_of_cons in Hn.
Qed.

Lemma exec_module_world (P : W → Prop) prog s :
  (∀ sub w, sub ∈ submodules prog → P w → P (body sub w).2) →
  keeps_world P s (exec_module body prog s).2.
Proof.
  intros HP. apply (exec_module_preserves (keeps_world P)). intros st Hst s1.
  apply exec_from_import_world. intros w. apply HP.
  apply list_elem_of_fmap. by exists st.
Qed.

Lemma exec_module_trace prog s :
  extends_trace s (exec_module body prog s).2.
Proof.
  apply (exec_module_preserves extends_trace).
  intros st _. apply exec_from_import_trace.
Qed.
End Statements.

(** ** Statements that return *)

Section Names.
Context {W : Type}.
Implicit Types s : state W.

Lemma import_names_names sub m names s :
  keeps_names names s (for_each (import_from sub m) names s).2.
Proof.
  apply (for_each_preserves (keeps_names names)). intros n Hn s1.
  eapply keeps_names_weaken, import_from_names.
  by intros k ->%list_elem_of_singleton.
Qed.

Lemma import_names_Return sub m names s s' :
  for_each (import_from sub m) names s = (Return tt, s') →
  (∀ n, n ∈ names → is_Some (m !! n)) ∧
  (is_Some (sys_modules s !! package) →
     ∀ n, n ∈ names → package_ns s' !! n = m !! n) ∧
  trace s' = trace s ++ (EBind <$> names) ∧
  world s' = world s.
Proof.
  revert s. induction names as [|n names IH]; intros s.
  { intros [= <-]. rewrite app_nil_r.
    split_and!; [by intros ? ?%elem_of_nil|by intros _ ? ?%elem_of_nil|done..]. }
  intros (s1 & Hn & Hrest)%for_each_cons_Return.
  apply import_from_Return in Hn as (v & Hv & ->).
  pose proof (import_names_names sub m names
                (log (EBind n) (setattr package n v s))) as Hkeep.
  rewrite Hrest in Hkeep; simpl in Hkeep.
  apply IH in Hrest as (Hdef & Hbound & Htrace & Hworld).
  split_and!.
  - intros n' [->|?]%elem_of_cons; eauto.
  - intros Hpkg n' Hn'. destruct (decide (n' ∈ names)) as [Hin|Hin].
    + apply Hbound; [|done]. simpl. by rewrite lookup_alter_eq, fmap_is_Some.
    + apply elem_of_cons in Hn' as [->|?]; [|done].
      rewrite (Hkeep n Hin); simpl.
      change (package_ns (setattr package n v s) !! n = m !! n).
      rewrite package_ns_setattr, decide_True by done.
      destruct Hpkg as [ns ->]. by rewrite Hv.
  - rewrite Htrace; simpl. by rewrite <-app_assoc.
  - by rewrite Hworld.
Qed.

(** The names loop raises at the first name the module does not define. *)
Lemma import_names_Raise sub m names s e s' :
  for_each (import_from sub m) names s = (Raise e, s') ↔
  ∃ pre n post s1, names = pre ++ n :: post ∧
    for_each (import_from sub m) pre s = (Return tt, s1) ∧
    m !! n = None ∧ e = CannotImportName n (qualname sub) ∧ s' = s1.
Proof.
  rewrite for_each_Raise. split.
  - intros (pre & n & post & s1 & -> & Hpre & Hn).
    apply import_from_Raise in Hn as (? & ? & ?). by exists pre, n, post, s1.
  - intros (pre & n & post & s1 & -> & Hpre & Hn & -> & ->).
    exists pre, n, post, s1. split_and!; [done..|].
    by apply import_from_Raise.
Qed.
End Names.

Section Success.
Context {W : Type}.
Variable body : string → W → outcome namespace * W.
Implicit Types (s : state W) (st : from_import) (prog : list from_import).

Lemma getattr_package s n :
  getattr s package n = package_ns s !! n.
Proof.
  unfold getattr, package_ns.
  by destruct (sys_modules s !! package).
Qed.

Lemma import_names_cached sub m names s :
  keeps_cached s (for_each (import_from sub m) names s).2.
Proof.
  apply (for_each_preserves keeps_cached). intros n _.
  apply import_from_cached.
Qed.

Lemma exec_from_import_Return st s s' :
  exec_from_import body st s = (Return tt, s') →
  ∃ m,
    sys_modules s' !! qualname (fi_module st) = Some m ∧
    (∀ n, n ∈ fi_names st → is_Some (m !! n)) ∧
    (is_Some (sys_modules s !! package) →
       ∀ n, n ∈ fi_names st → package_ns s' !! n = m !! n) ∧
    trace s' = trace s ++ statement_events (sys_modules s) st.
Proof.
  unfold exec_from_import, statement_events.
  intros (m & s1 & Hsub & Hnames)%bind_Return. exists m.
  pose proof (import_names_cached (fi_module st) m (fi_names st) s1) as Hc.
  rewrite Hnames in Hc; simpl in Hc.
  apply import_names_Return in Hnames as (Hdef & Hbound & Htrace & _).
  pose proof (qualname_ne_package (fi_module st)) as Hq.
  apply import_submodule_Return in Hsub
    as [[Hm ->]|[Hm (w & Hbody & ->)]]; rewrite Hm.
  - split_and!; [by apply Hc|done|done|].
    rewrite Htrace; simpl. by rewrite <-app_assoc.
  - split_and!; [|done| |].
    + apply Hc; [done|]. simpl.
      by rewrite lookup_alter_ne, lookup_insert_eq.
    + intros Hpkg. apply Hbound. simpl.
      by rewrite lookup_alter_eq, fmap_is_Some, lookup_insert_ne.
    + rewrite Htrace; simpl. by rewrite <-!app_assoc.
Qed.

Lemma exec_from_import_attr st s s' :
  exec_from_import body st s = (Return tt, s') →
  is_Some (sys_modules s !! package) →
  fi_module st ∉ fi_names st →
  package_ns s' !! fi_module st =
    match sys_modules s !! qualname (fi_module st) with
    | Some _ => package_ns s !! fi_module st
    | None => Some (VModule (qualname (fi_module st)))
    end.
Proof.
  unfold exec_from_import.
  intros (m & s1 & Hsub & Hnames)%bind_Return [ns Hpkg] Hnotin.
  pose proof (import_names_names (fi_module st) m (fi_names st) s1) as Hk.
  rewrite Hnames in Hk; simpl in Hk. rewrite (Hk _ Hnotin).
  apply import_submodule_Return in Hsub
    as [[Hm ->]|[Hm (w & Hbody & ->)]]; rewrite Hm; [done|].
  rewrite package_ns_initialised, decide_True by done.
  simpl. by rewrite Hpkg.
Qed.

Lemma NoDup_targets_cons st prog :
  NoDup (targets (st :: prog)) →
  (fi_module st ∉ fi_names st) ∧
  (∀ n, n ∈ fi_module st :: fi_names st → n ∉ targets prog) ∧
  NoDup (targets prog).
Proof.
  change (targets (st :: prog))
    with ((fi_module st :: fi_names st) ++ targets prog).
  intros ([Hsub _]%NoDup_cons & Hdisj & Hrest)%NoDup_app. by split_and!.
Qed.

Lemma NoDup_targets_submodules prog :
  NoDup (targets prog) → NoDup (submodules prog).
Proof.
  induction prog as [|st prog IH]; [constructor|].
  intros (_ & Hdisj & Hrest)%NoDup_targets_cons.
  simpl. constructor; [|by apply IH].
  intros (st' & Heq & Hst')%list_elem_of_fmap.
  apply (Hdisj (fi_module st)); [by left|].
  apply elem_of_targets. exists st'. split; [done|by left].
Qed.

Lemma exec_module_cons_Return st prog s s' :
  exec_module body (st :: prog) s = (Return tt, s') ↔
  ∃ s1, exec_from_import body st s = (Return tt, s1) ∧
        exec_module body prog s1 = (Return tt, s').
Proof. apply for_each_cons_Return. Qed.

(** Each imported name is bound, in the package, to the very object it
    is bound to in the submodule it comes from. *)
Lemma exec_module_binds prog s s' :
  NoDup (targets prog) →
  is_Some (sys_modules s !! package) →
  exec_module body prog s = (Return tt, s') →
  ∀ sub n, (sub, n) ∈ origins prog →
    ∃ v, getattr s' package n = Some v ∧
         getattr s' (qualname sub) n = Some v.
Proof.
  revert s. induction prog as [|st prog IH]; intros s Hnd Hpkg Hrun sub n.
  { by intros ?%elem_of_nil. }
  apply exec_module_cons_Return in Hrun as (s1 & Hst & Hrest).
  apply NoDup_targets_cons in Hnd as (_ & Hdisj & Hnd).
  assert (is_Some (sys_modules s1 !! package)) as Hpkg1.
  { pose proof (exec_from_import_loaded body st s) as Hl.
    rewrite Hst in Hl. by apply Hl. }
  unfold origins; simpl. rewrite elem_of_app.
  intros [Hthis|Hlater]; [|by eapply IH].
  apply list_elem_of_fmap in Hthis as (n' & [= -> ->] & Hn).
  apply exec_from_import_Return in Hst as (m & Hm & Hdef & Hbound & _).
  destruct (Hdef _ Hn) as [v Hv]. exists v.
  pose proof (exec_module_names body prog s1) as Hkeep.
  pose proof (exec_module_cached body prog s1) as Hcached.
  rewrite Hrest in Hkeep, Hcached; simpl in Hkeep, Hcached. split.
  - rewrite getattr_package, Hkeep, Hbound by (try apply Hdisj; by try right).
    done.
  - unfold getattr. erewrite Hcached; [|apply qualname_ne_package|done].
    done.
Qed.
End Success.

Section Module.
Context {W : Type}.
Variable body : string → W → outcome namespace * W.
Implicit Types (s : state W) (st : from_import) (prog : list from_import).

(** A submodule initialised by the run is bound as an attribute of the
    package; one that was cached before is not bound by the run. *)
Lemma exec_module_attrs prog s s' :
  NoDup (targets prog) →
  is_Some (sys_modules s !! package) →
  exec_module body prog s = (Return tt, s') →
  ∀ sub, sub ∈ submodules prog →
    package_ns s' !! sub =
      match sys_modules s !! qualname sub with
      | Some _ => package_ns s !! sub
      | None => Some (VModule (qualname sub))
      end.
Proof.
  revert s. induction prog as [|st prog IH]; intros s Hnd Hpkg Hrun sub.
  { by intros ?%elem_of_nil. }
  apply exec_module_cons_Return in Hrun as (s1 & Hst & Hrest).
  apply NoDup_targets_cons in Hnd as (Hnotin & Hdisj & Hnd).
  pose proof (exec_from_import_loaded body st s) as Hl.
  pose proof (exec_from_import_modules body st s) as Hmods.
  pose proof (exec_from_import_names body st s) as Hnames.
  rewrite Hst in Hl, Hmods, Hnames; simpl in Hl, Hmods, Hnames.
  intros [->|Hsub]%elem_of_cons.
  - pose proof (exec_module_names body prog s1) as Hkeep.
    rewrite Hrest in Hkeep; simpl in Hkeep.
    rewrite Hkeep by (apply Hdisj; by left).
    by apply (exec_from_import_attr body).
  - assert (sub ∈ targets prog) as Htgt.
    { apply list_elem_of_fmap in Hsub as (st' & -> & Hst').
      apply elem_of_targets. exists st'. split; [done|by left]. }
    assert (sub ∉ fi_module st :: fi_names st) as Hfresh
      by (intros Hin; by apply (Hdisj sub)).
    rewrite (IH s1) by (done || by apply Hl).
    rewrite Hmods, Hnames; [done|done|].
    intros [Heq|[Heq|[]%elem_of_nil]%elem_of_cons]%elem_of_cons.
    + by apply qualname_ne_package in Heq.
    + apply qualname_inj in Heq as ->. apply Hfresh. by left.
Qed.

Lemma module_events_cons c st prog :
  module_events c (st :: prog)
  = statement_events c st ++ module_events c prog.
Proof. done. Qed.

Lemma module_events_ext c1 c2 prog :
  (∀ sub, sub ∈ submodules prog → c1 !! qualname sub = c2 !! qualname sub) →
  module_events c1 prog = module_events c2 prog.
Proof.
  induction prog as [|st prog IH]; intros Hext; [done|].
  rewrite !module_events_cons. f_equal.
  - unfold statement_events. rewrite Hext; [done|by left].
  - apply IH. intros sub Hsub. apply Hext. by right.
Qed.

(** The log of a run that returns: the statements in textual order, each
    with its import, the initialisation of its submodule if that was not
    cached when the run began, and its bindings. *)
Lemma exec_module_events prog s s' :
  NoDup (submodules prog) →
  exec_module body prog s = (Return tt, s') →
  trace s' = trace s ++ module_events (sys_modules s) prog.
Proof.
  revert s. induction prog as [|st prog IH]; intros s Hnd Hrun.
  { injection Hrun as <-. by rewrite app_nil_r. }
  apply exec_module_cons_Return in Hrun as (s1 & Hst & Hrest).
  apply NoDup_cons in Hnd as [Hfresh Hnd].
  pose proof (exec_from_import_modules body st s) as Hmods.
  rewrite Hst in Hmods; simpl in Hmods.
  apply exec_from_import_Return in Hst as (_ & _ & _ & _ & Htrace).
  rewrite (IH s1), Htrace, <-app_assoc, module_events_cons by done.
  do 2 f_equal. apply module_events_ext. intros sub Hsub. apply Hmods.
  intros [Heq|[Heq|[]%elem_of_nil]%elem_of_cons]%elem_of_cons.
  - by apply qualname_ne_package in Heq.
  - by apply qualname_inj in Heq as ->.
Qed.

(** A run binds no name outside its targets. *)
Lemma exec_module_dom prog s n :
  n ∈ dom (package_ns (exec_module body prog s).2) →
  n ∈ dom (package_ns s) ∨ n ∈ targets prog.
Proof.
  intros Hn. destruct (decide (n ∈ targets prog)) as [|Hfresh]; [by right|].
  left. apply elem_of_dom. apply elem_of_dom in Hn.
  by rewrite (exec_module_names body prog s n Hfresh) in Hn.
Qed.
End Module.

(** ** Importing the package *)

Section Package.
Context {W : Type}.
Variable body : string → W → outcome namespace * W.
Variable attr_value : string → value.
Implicit Types s : state W.

Lemma import_package_Return s v s' :
  import_package body attr_value s = (Return v, s') ↔
  v = VModule package ∧
  (is_Some (sys_modules s !! package) ∧ s' = s ∨
   sys_modules s !! package = None ∧
   exec_module body init_py (register attr_value s) = (Return tt, s')).
Proof.
  unfold import_package.
  destruct (sys_modules s !! package) as [ns|].
  { split; [intros [= <- <-]; eauto|]. by intros [-> [[_ ->]|[[=] _]]]. }
  destruct (exec_module _ _ _) as [[[]|e] s2]; split.
  - intros [= <- <-]. eauto.
  - by intros [-> [[[? [=]] _]|[_ [= ->]]]].
  - discriminate.
  - by intros [_ [[[? [=]] _]|[_ [=]]]].
Qed.

Lemma import_package_Raise s e s' :
  import_package body attr_value s = (Raise e, s') ↔
  sys_modules s !! package = None ∧
  ∃ s2, exec_module body init_py (register attr_value s) = (Raise e, s2) ∧
        s' = unregister s2.
Proof.
  unfold import_package.
  destruct (sys_modules s !! package) as [ns|].
  { split; [discriminate|]. by intros [[=] _]. }
  destruct (exec_module _ _ _) as [[[]|e'] s2]; split.
  - discriminate.
  - by intros [_ (s3 & [=] & _)].
  - intros [= <- <-]. eauto.
  - by intros [_ (s3 & [= -> ->] & ->)].
Qed.

Lemma register_loaded s : is_Some (sys_modules (register attr_value s) !! package).
Proof. unfold register; simpl. by rewrite lookup_insert_eq. Qed.

Lemma package_ns_register s :
  package_ns (register attr_value s) = module_attrs attr_value.
Proof. unfold package_ns, register; simpl. by rewrite lookup_insert_eq. Qed.

Lemma register_submodule s sub :
  sys_modules (register attr_value s) !! qualname sub
  = sys_modules s !! qualname sub.
Proof.
  unfold register; simpl. rewrite lookup_insert_ne; [done|].
  intros Heq. by apply (qualname_ne_package sub).
Qed.

(** After a load that returned, the package is in the cache. *)
Lemma import_package_loaded s v s' :
  import_package body attr_value s = (Return v, s') →
  is_Some (sys_modules s' !! package).
Proof.
  intros [_ [[? ->]|[_ Hrun]]]%import_package_Return; [done|].
  pose proof (exec_module_loaded body init_py (register attr_value s)) as Hl.
  rewrite Hrun in Hl. apply Hl, register_loaded.
Qed.
End Package.

(** ** Failing statements, and the shape of the log *)

Section Failure.
Context {W : Type}.
Variable body : string → W → outcome namespace * W.
Implicit Types (s : state W) (st : from_import) (prog : list from_import).

Lemma import_names_total sub m names s :
  (∀ n, n ∈ names → is_Some (m !! n)) →
  ∃ s', for_each (import_from sub m) names s = (Return tt, s').
Proof.
  revert s. induction names as [|n names IH]; intros s Hdef; [by eexists|].
  destruct (Hdef n) as [v Hv]; [by left|].
  destruct (IH (log (EBind n) (setattr package n v s))) as [s' Hs'].
  { intros n' Hn'. apply Hdef. by right. }
  exists s'. apply for_each_cons_Return. eexists. split; [|done].
  apply import_from_Return. eauto.
Qed.

Lemma exec_from_import_fails st s e :
  (exec_from_import body st s).1 = Raise e ↔ import_fails body st s e.
Proof.
  unfold import_fails. split.
  - destruct (exec_from_import body st s) as [o s'] eqn:Hrun.
    simpl. intros ->. unfold exec_from_import in Hrun.
    apply bind_Raise in Hrun as [Hsub|(m & s1 & Hsub & Hnames)].
    + apply import_submodule_Raise in Hsub as (Hnone & w & Hbody & _).
      left. by rewrite Hbody.
    + right.
      apply import_names_Raise in Hnames
        as (pre & n & post & s2 & Hsplit & Hpre & Hn & -> & _).
      apply import_names_Return in Hpre as (Hdef & _).
      exists m, pre, n, post. split_and!; [|done..].
      apply import_submodule_Return in Hsub
        as [[Hm _]|[Hm (w & Hbody & _)]]; [by left|right].
      by rewrite Hbody.
  - unfold exec_from_import.
    intros [[Hnone Hbody]|(m & pre & n & post & Hm & Hsplit & Hdef & Hn & ->)].
    + destruct (body (fi_module st) (world s)) as [o w] eqn:Hb.
      simpl in Hbody; subst o.
      assert (import_submodule body (fi_module st) s
              = (Raise e, State (sys_modules s) w
                            (trace s ++ [EImport (fi_module st)]))) as Hsub
        by (apply import_submodule_Raise; eauto).
      unfold bind. by rewrite Hsub.
    + assert (∃ s1, import_submodule body (fi_module st) s = (Return m, s1))
        as [s1 Hsub].
      { destruct Hm as [Hm|[Hm Hbody]].
        - eexists. apply import_submodule_Return. by left.
        - destruct (body (fi_module st) (world s)) as [o w] eqn:Hb.
          simpl in Hbody; subst o.
          eexists. apply import_submodule_Return. right. eauto. }
      destruct (import_names_total (fi_module st) m pre s1 Hdef)
        as [s2 Hpre].
      assert (for_each (import_from (fi_module st) m) (fi_names st) s1
              = (Raise (CannotImportName n (qualname (fi_module st))), s2))
        as Hnames.
      { apply import_names_Raise. by exists pre, n, post, s2. }
      unfold bind. by rewrite Hsub, Hnames.
Qed.

Lemma exec_module_Raise prog s e s' :
  exec_module body prog s = (Raise e, s') ↔
  ∃ pre st post s1, prog = pre ++ st :: post ∧
    exec_module body pre s = (Return tt, s1) ∧
    exec_from_import body st s1 = (Raise e, s').
Proof. apply for_each_Raise. Qed.
End Failure.

Section Log.
Implicit Types (c : gmap string namespace) (st : from_import)
  (prog : list from_import).

Lemma imports_of_binds names : imports_of (EBind <$> names) = [].
Proof. by induction names. Qed.

Lemma inits_of_binds names : inits_of (EBind <$> names) = [].
Proof. by induction names. Qed.

Lemma binds_of_binds names : binds_of (EBind <$> names) = names.
Proof. induction names; [done|]. simpl. by f_equal. Qed.

Lemma imports_of_statement c st :
  imports_of (statement_events c st) = [fi_module st].
Proof.
  unfold statement_events, imports_of. simpl. f_equal.
  rewrite omap_app. fold (imports_of (EBind <$> fi_names st)).
  rewrite imports_of_binds. by destruct (c !! _).
Qed.

Lemma binds_of_statement c st :
  binds_of (statement_events c st) = fi_names st.
Proof.
  unfold statement_events, binds_of. simpl.
  rewrite omap_app. fold (binds_of (EBind <$> fi_names st)).
  rewrite binds_of_binds. by destruct (c !! _).
Qed.

Lemma inits_of_statement c st :
  inits_of (statement_events c st) =
  filter (λ sub, c !! qualname sub = None) [fi_module st].
Proof.
  unfold statement_events, inits_of. simpl.
  rewrite omap_app. fold (inits_of (EBind <$> fi_names st)).
  rewrite inits_of_binds, app_nil_r.
  rewrite filter_cons, filter_nil. case_decide as Hc.
  - by rewrite Hc.
  - by destruct (c !! _).
Qed.

Lemma imports_of_module c prog :
  imports_of (module_events c prog) = submodules prog.
Proof.
  induction prog as [|st prog IH]; [done|].
  rewrite module_events_cons. unfold imports_of in *.
  rewrite omap_app. fold (imports_of (statement_events c st)).
  by rewrite imports_of_statement, IH.
Qed.

Lemma binds_of_module c prog :
  binds_of (module_events c prog) = imported_names prog.
Proof.
  induction prog as [|st prog IH]; [done|].
  rewrite module_events_cons. unfold binds_of in *.
  rewrite omap_app. fold (binds_of (statement_events c st)).
  by rewrite binds_of_statement, IH.
Qed.

Lemma inits_of_module c prog :
  inits_of (module_events c prog) =
  filter (λ sub, c !! qualname sub = None) (submodules prog).
Proof.
  induction prog as [|st prog IH]; [done|].
  rewrite module_events_cons. unfold inits_of in *.
  rewrite omap_app. fold (inits_of (statement_events c st)).
  rewrite inits_of_statement, IH.
  change (submodules (st :: prog)) with ([fi_module st] ++ submodules prog).
  by rewrite filter_app.
Qed.

Lemma module_events_app c prog1 prog2 :
  module_events c (prog1 ++ prog2)
  = module_events c prog1 ++ module_events c prog2.
Proof. apply bind_app. Qed.

(** In the log of a run, a name is bound after the import of its
    submodule, and after the initialisation of the submodule unless that
    was cached before the run. *)
Lemma module_events_before c prog sub n :
  (sub, n) ∈ origins prog →
  before (EImport sub) (EBind n) (module_events c prog) ∧
  (is_Some (c !! qualname sub) ∨
   before (EInit sub) (EBind n) (module_events c prog)).
Proof.
  intros (st & Hst & <- & Hn)%elem_of_origins.
  apply list_elem_of_split in Hst as (p1 & p2 & ->).
  apply list_elem_of_split in Hn as (n1 & n2 & Hnames).
  rewrite module_events_app, module_events_cons.
  unfold statement_events. rewrite Hnames, fmap_app, fmap_cons.
  destruct (c !! qualname (fi_module st)) as [m|]; split.
  - exists (module_events c p1), (EBind <$> n1),
      ((EBind <$> n2) ++ module_events c p2).
    simpl. by rewrite <-!app_assoc.
  - left. by eexists.
  - exists (module_events c p1), (EInit (fi_module st) :: (EBind <$> n1)),
      ((EBind <$> n2) ++ module_events c p2).
    simpl. by rewrite <-!app_assoc.
  - right.
    exists (module_events c p1 ++ [EImport (fi_module st)]), (EBind <$> n1),
      ((EBind <$> n2) ++ module_events c p2).
    simpl. by rewrite <-!app_assoc.
Qed.
End Log.

(** ** The state outside the module cache *)

Section Outside.
Context {W : Type}.
Variable body : string → W → outcome namespace * W.
Implicit Types (s : state W) (st : from_import) (prog : list from_import).

Lemma import_names_world sub m names s :
  world (for_each (import_from sub m) names s).2 = world s.
Proof.
  revert s. induction names as [|n names IH]; intros s; [done|].
  simpl. unfold bind, import_from, raise.
  destruct (m !! n) as [v|]; [|done]. by rewrite IH.
Qed.

(** Whatever its outcome, a statement changes the world by running the body
    of its submodule, and only if the submodule is not cached. *)
Lemma exec_from_import_world_eq st s :
  world (exec_from_import body st s).2 =
  match sys_modules s !! qualname (fi_module st) with
  | Some _ => world s
  | None => (body (fi_module st) (world s)).2
  end.
Proof.
  unfold exec_from_import, bind.
  destruct (import_submodule body (fi_module st) s) as [[m|e] s1] eqn:Hsub.
  - rewrite import_names_world.
    apply import_submodule_Return in Hsub
      as [[Hm ->]|[Hm (w & Hbody & ->)]]; rewrite Hm; [done|].
    by rewrite Hbody.
  - apply import_submodule_Raise in Hsub as (Hm & w & Hbody & ->).
    by rewrite Hm, Hbody.
Qed.

(** A run that finds the submodules of all its statements in the cache
    leaves the world as it is, whatever its outcome. *)
Lemma exec_module_world_cached prog s :
  (∀ sub, sub ∈ submodules prog → is_Some (sys_modules s !! qualname sub)) →
  world (exec_module body prog s).2 = world s.
Proof.
  revert s. induction prog as [|st prog IH]; intros s Hall; [done|].
  change (submodules (st :: prog)) with (fi_module st :: submodules prog)
    in Hall.
  pose proof (exec_from_import_world_eq st s) as Hw.
  pose proof (exec_from_import_cached body st s) as Hc.
  destruct (Hall (fi_module st)) as [m Hm]; [by left|]. rewrite Hm in Hw.
  change (exec_module body (st :: prog) s)
    with (bind (exec_from_import body st) (λ _, exec_module body prog) s).
  unfold bind.
  destruct (exec_from_import body st s) as [[[]|e] s1]; simpl in *; [|done].
  rewrite IH; [done|]. intros sub Hsub.
  destruct (Hall sub) as [m' Hm']; [by right|]. exists m'.
  apply Hc; [apply qualname_ne_package|done].
Qed.
End Outside.

(** * The claims *)

Section Claims.
Context {W : Type}.
Variable body : string → W → outcome namespace * W.
Variable attr_value : string → value.
Implicit Types s : state W.

Lemma listed_names_origin n :
  n ∈ listed_names →
  ∃ sub, (sub, n) ∈ origins init_py ∧ sub ∈ listed_submodules.
Proof.
  rewrite <-origins_init_py.
  intros ([sub n'] & -> & Hin)%list_elem_of_fmap. exists sub.
  split; [done|]. rewrite <-submodules_init_py.
  apply elem_of_origins in Hin as (st & Hst & <- & _).
  apply list_elem_of_fmap. by exists st.
Qed.

(** C1.  After a load of the package that returns, every name of the list
    of section 6 resolves in the package namespace, and the object it is
    bound to is the one the submodule it is imported from binds to that
    name. *)
Theorem reexport_identity s v s' :
  sys_modules s !! package = None →
  import_package body attr_value s = (Return v, s') →
  ∀ n, n ∈ listed_names →
    ∃ sub o, (sub, n) ∈ origins init_py ∧ sub ∈ listed_submodules ∧
      getattr s' package n = Some o ∧
      getattr s' (qualname sub) n = Some o.
Proof.
  intros Hnew [_ [[[? Hold] _]|[_ Hrun]]]%import_package_Return n Hn;
    [congruence|].
  destruct (listed_names_origin n Hn) as (sub & Horigin & Hsub).
  destruct (exec_module_binds body init_py _ _ targets_init_py_NoDup
              (register_loaded attr_value s) Hrun sub n Horigin)
    as (o & Hpkg & Hmod).
  by exists sub, o.
Qed.
Lemma module_attrs_lookup_None n :
  n ∉ module_attr_names → module_attrs attr_value !! n = None.
Proof.
  intros Hn. apply not_elem_of_list_to_map_1.
  by rewrite <-list_fmap_compose, list_fmap_id.
Qed.

Lemma module_attrs_dom n :
  n ∈ dom (module_attrs attr_value) → n ∈ module_attr_names.
Proof.
  intros [v Hv]%elem_of_dom.
  destruct (decide (n ∈ module_attr_names)) as [|Hn]; [done|].
  by rewrite module_attrs_lookup_None in Hv.
Qed.

Lemma targets_init_py_listed n :
  n ∈ targets init_py → n ∈ listed_names ++ listed_submodules.
Proof.
  revert n. apply Forall_forall, (bool_decide_unpack _). by vm_compute.
Qed.

Lemma module_attr_names_private n :
  n ∈ module_attr_names → is_private n = true.
Proof.
  revert n. apply Forall_forall, (bool_decide_unpack _). by vm_compute.
Qed.

Lemma listed_submodules_private n :
  n ∈ listed_submodules → is_private n = true.
Proof.
  revert n. apply Forall_forall, (bool_decide_unpack _). by vm_compute.
Qed.

Lemma listed_names_public n :
  n ∈ listed_names → is_private n = false.
Proof.
  revert n. apply Forall_forall, (bool_decide_unpack _). by vm_compute.
Qed.

Lemma listed_submodules_fresh n :
  n ∈ listed_submodules → n ∉ module_attr_names.
Proof.
  revert n. apply Forall_forall, (bool_decide_unpack _). by vm_compute.
Qed.

(** The names bound once the file has run: attributes of a new module,
    submodules, imported names. *)
Lemma load_dom s s' n :
  exec_module body init_py (register attr_value s) = (Return tt, s') →
  n ∈ dom (package_ns s') →
  n ∈ module_attr_names ∨ n ∈ listed_names ++ listed_submodules.
Proof.
  intros Hrun Hn.
  pose proof (exec_module_dom body init_py (register attr_value s) n) as Hd.
  rewrite Hrun, package_ns_register in Hd.
  destruct (Hd Hn) as [?%module_attrs_dom|?%targets_init_py_listed]; eauto.
Qed.

Lemma load_binds_listed s s' n :
  exec_module body init_py (register attr_value s) = (Return tt, s') →
  n ∈ listed_names → is_Some (package_ns s' !! n).
Proof.
  intros Hrun (sub & Horigin & _)%listed_names_origin.
  destruct (exec_module_binds body init_py _ _ targets_init_py_NoDup
              (register_loaded attr_value s) Hrun sub n Horigin)
    as (o & Hpkg & _).
  rewrite getattr_package in Hpkg. by exists o.
Qed.

Lemma load_public s s' n :
  exec_module body init_py (register attr_value s) = (Return tt, s') →
  n ∈ dom (package_ns s') → is_private n = false → n ∈ listed_names.
Proof.
  intros Hrun Hn Hpub.
  destruct (load_dom s s' n Hrun Hn)
    as [Hp%module_attr_names_private
       |[?|Hp%listed_submodules_private]%elem_of_app];
    [congruence|done|congruence].
Qed.

(** C2, amended.  A name that a load adds to the namespace of the new
    package module is one of the 21 listed names or the name of one of
    the six submodules; a name that does not begin with an underscore is
    one of the 21. *)
Theorem only_listed_and_submodules s v s' :
  sys_modules s !! package = None →
  import_package body attr_value s = (Return v, s') →
  binds_only (listed_names ++ listed_submodules)
    (module_attrs attr_value) (package_ns s') ∧
  (∀ n, n ∈ dom (package_ns s') → is_private n = false →
        n ∈ listed_names).
Proof.
  intros Hnew [_ [[[? Hold] _]|[_ Hrun]]]%import_package_Return;
    [congruence|].
  split.
  - intros n Hn Hfresh.
    destruct (load_dom s s' n Hrun Hn) as [Hattr|]; [|done].
    destruct Hfresh. apply elem_of_dom.
    apply dec_stable. intros Hnone%eq_None_not_Some.
    apply not_elem_of_list_to_map_2 in Hnone.
    by rewrite <-list_fmap_compose, list_fmap_id in Hnone.
  - intros n. by apply (load_public s).
Qed.

(** C3, amended.  After a load that returns, every symbol that a
    from-import of the file names from a submodule is bound in the package
    under the same name, to the very object the submodule binds to it. *)
Theorem reexports_the_imported s v s' :
  sys_modules s !! package = None →
  import_package body attr_value s = (Return v, s') →
  reexports_imported init_py s'.
Proof.
  intros Hnew [_ [[[? Hold] _]|[_ Hrun]]]%import_package_Return;
    [congruence|].
  intros st S Hst HS.
  destruct (exec_module_binds body init_py _ _ targets_init_py_NoDup
              (register_loaded attr_value s) Hrun (fi_module st) S)
    as (o & Hpkg & Hmod); [|by exists o].
  apply elem_of_origins. by exists st.
Qed.

(** C10, amended.  After a load that returns, each of the six submodules
    that the load initialised is an attribute of the package, bound to
    the module; one that was in the module cache before the load is not
    bound.  All 21 listed names are bound, the namespace has no
    [__all__], and a wildcard import exposes the 21 listed names and no
    other. *)
Theorem submodule_attributes_and_wildcard s v s' :
  sys_modules s !! package = None →
  import_package body attr_value s = (Return v, s') →
  (∀ sub, sub ∈ listed_submodules →
     package_ns s' !! sub =
       match sys_modules s !! qualname sub with
       | Some _ => None
       | None => Some (VModule (qualname sub))
       end) ∧
  (∀ n, n ∈ listed_names → is_Some (package_ns s' !! n)) ∧
  wildcard_names (package_ns s') = Some (list_to_set listed_names).
Proof.
  intros Hnew [_ [[[? Hold] _]|[_ Hrun]]]%import_package_Return;
    [congruence|].
  split_and!.
  - intros sub Hsub.
    rewrite (exec_module_attrs body init_py _ _ targets_init_py_NoDup
               (register_loaded attr_value s) Hrun sub)
      by by rewrite submodules_init_py.
    rewrite register_submodule, package_ns_register.
    destruct (sys_modules s !! qualname sub); [|done].
    by apply module_attrs_lookup_None, listed_submodules_fresh.
  - intros n. by apply (load_binds_listed s).
  - unfold wildcard_names.
    assert (package_ns s' !! "__all__" = None) as ->.
    { pose proof (exec_module_names body init_py (register attr_value s)
                    "__all__") as Hkeep.
      rewrite Hrun, package_ns_register in Hkeep; simpl in Hkeep.
      rewrite Hkeep.
      - apply module_attrs_lookup_None, (bool_decide_unpack _).
        by vm_compute.
      - apply (bool_decide_unpack _). by vm_compute. }
    f_equal. apply set_eq. intros n.
    rewrite elem_of_filter, elem_of_list_to_set. split.
    + intros [Hpub Hn]. by apply (load_public s s').
    + intros Hn. split; [by apply listed_names_public|].
      by apply elem_of_dom, (load_binds_listed s).
Qed.

(** C4.  Once an import of the package has returned, any number of
    further imports returns the same module and leaves the whole state as
    it is: the cache, and so every bound object; the world, so no body is
    run again; the log, so nothing is executed. *)
Theorem import_idempotent s v s' k :
  import_package body attr_value s = (Return v, s') →
  reimport (import_package body attr_value) k (Return v, s')
  = (Return v, s').
Proof.
  intros Hfirst.
  assert (import_package body attr_value s' = (Return v, s')) as Hagain.
  { pose proof (import_package_loaded _ _ _ _ _ Hfirst) as Hl.
    apply import_package_Return in Hfirst as [-> _].
    apply import_package_Return. split; [done|]. by left. }
  induction k as [|k IH]; [done|].
  unfold reimport in *. simpl. by rewrite IH.
Qed.

(** C5.  A load raises [e] exactly when the package is not loaded yet
    and, after the statements before it have returned, the import of the
    submodule of some statement fails with [e]: the exception of the
    failing import is the exception of the load, and the load raises no
    other. *)
Theorem failure_propagates s e :
  (import_package body attr_value s).1 = Raise e ↔
  sys_modules s !! package = None ∧
  ∃ pre st post s1, init_py = pre ++ st :: post ∧
    exec_module body pre (register attr_value s) = (Return tt, s1) ∧
    import_fails body st s1 e.
Proof.
  split.
  - destruct (import_package body attr_value s) as [o s'] eqn:Hload.
    simpl. intros ->.
    apply import_package_Raise in Hload as (Hnew & s2 & Hrun & _).
    split; [done|].
    apply exec_module_Raise in Hrun as (pre & st & post & s1 & ? & ? & Hst).
    exists pre, st, post, s1. split_and!; [done..|].
    apply exec_from_import_fails. by rewrite Hst.
  - intros (Hnew & pre & st & post & s1 & Hsplit & Hpre & Hst).
    apply exec_from_import_fails in Hst.
    destruct (exec_from_import body st s1) as [o s2] eqn:Hrun.
    simpl in Hst; subst o.
    assert (import_package body attr_value s = (Raise e, unregister s2))
      as ->; [|done].
    apply import_package_Raise. split; [done|]. exists s2. split; [|done].
    apply exec_module_Raise. by exists pre, st, post, s1.
Qed.

(** C6.  A load that returns runs the six imports in the order of the
    file and then binds the names in the order of the file; it
    initialises no submodule twice; each name is bound after the import
    of its submodule and, unless the submodule was initialised before the
    load began, after its initialisation; and a further import runs
    nothing. *)
Theorem load_order s v s' :
  sys_modules s !! package = None →
  import_package body attr_value s = (Return v, s') →
  ∃ t, trace s' = trace s ++ t ∧
    imports_of t = listed_submodules ∧
    binds_of t = listed_names ∧
    NoDup (inits_of t) ∧
    (∀ sub n, (sub, n) ∈ origins init_py →
       before (EImport sub) (EBind n) t ∧
       (is_Some (sys_modules s !! qualname sub) ∨
        before (EInit sub) (EBind n) t)) ∧
    trace (import_package body attr_value s').2 = trace s'.
Proof.
  intros Hnew Hload.
  pose proof (import_package_loaded _ _ _ _ _ Hload) as [ns Hns].
  apply import_package_Return in Hload as [_ [[[? Hold] _]|[_ Hrun]]];
    [congruence|].
  pose proof (NoDup_targets_submodules _ targets_init_py_NoDup) as Hnd.
  apply exec_module_events in Hrun; [|done].
  exists (module_events (sys_modules s) init_py). split_and!.
  - rewrite Hrun. change (trace (register attr_value s)) with (trace s).
    f_equal. apply module_events_ext.
    intros sub _. apply register_submodule.
  - by rewrite imports_of_module.
  - by rewrite binds_of_module.
  - rewrite inits_of_module. by apply NoDup_filter.
  - intros sub n. apply module_events_before.
  - unfold import_package. by rewrite Hns.
Qed.

(** C7, amended.  A load, whatever its outcome, changes the state outside
    the module cache only through the bodies of the submodules it runs: a
    property of that state which the bodies of the six submodules preserve
    holds after the load if it held before; and when all six submodules are
    in the cache already, so that no body is run, that state is left
    exactly as it was. *)
Theorem load_frame (P : W → Prop) s :
  (∀ sub w, sub ∈ listed_submodules → P w → P (body sub w).2) →
  P (world s) →
  P (world (import_package body attr_value s).2) ∧
  ((∀ sub, sub ∈ listed_submodules →
      is_Some (sys_modules s !! qualname sub)) →
   world (import_package body attr_value s).2 = world s).
Proof.
  intros HP Hw. unfold import_package.
  destruct (sys_modules s !! package) as [ns|] eqn:Hpkg; [done|].
  pose proof (exec_module_world body P init_py (register attr_value s) HP Hw)
    as Hworld.
  assert ((∀ sub, sub ∈ listed_submodules →
             is_Some (sys_modules s !! qualname sub)) →
          world (exec_module body init_py (register attr_value s)).2
          = world s) as Hsame.
  { intros Hall. rewrite exec_module_world_cached; [done|].
    intros sub Hsub. rewrite register_submodule. apply Hall.
    by rewrite <-submodules_init_py. }
  destruct (exec_module _ _ _) as [[[]|e] s2]; simpl in *; by split.
Qed.

(** C8.  If, after the statements before it have returned, a statement of
    the file raises, the load raises the same exception, the statements
    after it are not run, and the package is not in the module cache
    afterwards: none of the names bound before the failure can be
    resolved. *)
Theorem load_atomic s pre st post s1 e s2 :
  sys_modules s !! package = None →
  init_py = pre ++ st :: post →
  exec_module body pre (register attr_value s) = (Return tt, s1) →
  exec_from_import body st s1 = (Raise e, s2) →
  import_package body attr_value s = (Raise e, unregister s2) ∧
  sys_modules (unregister s2) !! package = None ∧
  (∀ n, getattr (unregister s2) package n = None).
Proof.
  intros Hnew Hsplit Hpre Hst.
  assert (sys_modules (unregister s2) !! package = None) as Hgone
    by apply lookup_delete_eq.
  split_and!; [|done|].
  - apply import_package_Raise. split; [done|]. exists s2. split; [|done].
    apply exec_module_Raise. by exists pre, st, post, s1.
  - intros n. unfold getattr. by rewrite Hgone.
Qed.

End Claims.

(** ** Two loads in the same environment *)

Section Determinism.
Context {W : Type}.
Variables body1 body2 : string → W → outcome namespace * W.
Variable attr_value : string → value.
Variable subs : list string.
Hypothesis same_bodies : ∀ sub w, sub ∈ subs → body1 sub w = body2 sub w.
Implicit Types s : state W.

Lemma bind_simulates {A B} (R : relation (state W))
    (m1 m2 : imp W A) (k1 k2 : A → imp W B) :
  simulates R m1 m2 → (∀ a, simulates R (k1 a) (k2 a)) →
  simulates R (bind m1 k1) (bind m2 k2).
Proof.
  intros Hm Hk s1 s2 HR. unfold bind.
  destruct (Hm s1 s2 HR) as [Ho HR'].
  destruct (m1 s1) as [[a1|e1] s1'], (m2 s2) as [[a2|e2] s2'];
    simplify_eq/=; [by apply Hk|done].
Qed.

Lemma for_each_simulates {A} (R : relation (state W))
    (f1 f2 : A → imp W unit) (l : list A) :
  (∀ x, x ∈ l → simulates R (f1 x) (f2 x)) →
  simulates R (for_each f1 l) (for_each f2 l).
Proof.
  induction l as [|x l IH]; intros Hf; [by intros s1 s2 HR|].
  simpl. apply bind_simulates; [apply Hf; by left|].
  intros _. apply IH. intros y Hy. apply Hf. by right.
Qed.

Lemma import_from_simulates sub m n :
  simulates (W:=W) (agree subs) (import_from sub m n) (import_from sub m n).
Proof.
  intros s1 s2 (Hw & Hp & Hs). unfold import_from, raise.
  destruct (m !! n) as [v|]; simpl; [|done].
  split; [done|]. split_and!; simpl; [done| |].
  - by rewrite !lookup_alter_eq, Hp.
  - intros sub' Hsub'.
    rewrite !lookup_alter_ne by (intros Heq; by apply (qualname_ne_package sub')).
    by apply Hs.
Qed.

Lemma import_submodule_simulates sub :
  sub ∈ subs →
  simulates (agree subs)
    (import_submodule body1 sub) (import_submodule body2 sub).
Proof.
  intros Hsub s1 s2 (Hw & Hp & Hs). unfold import_submodule; simpl.
  rewrite (Hs sub Hsub), Hw, (same_bodies sub _ Hsub).
  destruct (sys_modules s2 !! qualname sub) as [m|]; [done|].
  destruct (body2 sub (world s2)) as [[m|e] w]; simpl; [|done].
  split; [done|]. split_and!; simpl; [done| |].
  - rewrite !lookup_alter_eq, !lookup_insert_ne, Hp; [done|..];
      apply qualname_ne_package.
  - intros sub' Hsub'.
    rewrite !lookup_alter_ne by (intros Heq; by apply (qualname_ne_package sub')).
    rewrite !lookup_insert. case_decide; [done|by apply Hs].
Qed.

Lemma exec_module_simulates prog :
  (∀ st, st ∈ prog → fi_module st ∈ subs) →
  simulates (agree subs) (exec_module body1 prog) (exec_module body2 prog).
Proof.
  intros Hprog. apply for_each_simulates. intros st Hst.
  apply bind_simulates; [by apply import_submodule_simulates, Hprog|].
  intros m. apply for_each_simulates. intros n _.
  apply import_from_simulates.
Qed.

Lemma register_agree s1 s2 :
  agree subs s1 s2 →
  agree subs (register attr_value s1) (register attr_value s2).
Proof.
  intros (Hw & Hp & Hs). split_and!; simpl; [done| |].
  - by rewrite !lookup_insert_eq.
  - intros sub Hsub.
    rewrite !lookup_insert_ne by (intros Heq; by apply (qualname_ne_package sub)).
    by apply Hs.
Qed.

Lemma unregister_agree s1 s2 :
  agree subs s1 s2 → agree subs (unregister s1) (unregister s2).
Proof.
  intros (Hw & Hp & Hs). split_and!; simpl; [done| |].
  - by rewrite !lookup_delete_eq.
  - intros sub Hsub.
    rewrite !lookup_delete_ne by (intros Heq; by apply (qualname_ne_package sub)).
    by apply Hs.
Qed.

Lemma import_package_simulates :
  (∀ st, st ∈ init_py → fi_module st ∈ subs) →
  simulates (agree subs)
    (import_package body1 attr_value) (import_package body2 attr_value).
Proof.
  intros Hprog s1 s2 Hagree. unfold import_package.
  destruct (exec_module_simulates init_py Hprog _ _
              (register_agree s1 s2 Hagree)) as [Ho HR].
  pose proof Hagree as (_ & -> & _).
  destruct (sys_modules s2 !! package) as [ns|]; [done|].
  destruct (exec_module body1 _ _) as [[[]|e1] s1'],
           (exec_module body2 _ _) as [[[]|e2] s2'];
    simplify_eq/=; [done|].
  split; [done|]. by apply unregister_agree.
Qed.
End Determinism.

Lemma init_py_submodules st : st ∈ init_py → fi_module st ∈ listed_submodules.
Proof.
  intros Hst. rewrite <-submodules_init_py.
  apply list_elem_of_fmap. by exists st.
Qed.

(** C9.  Two loads of the package, from states in which it is not loaded,
    with the same world and the same cache entries for the six submodules,
    and with bodies that behave alike on the six submodules, end alike: the
    same outcome, the same package namespace, name for name and object for
    object, the same submodule entries, the same world. *)
Theorem load_deterministic {W}
    (body1 body2 : string → W → outcome namespace * W)
    (attr_value : string → value) (s1 s2 : state W) :
  (∀ sub w, sub ∈ listed_submodules → body1 sub w = body2 sub w) →
  sys_modules s1 !! package = None →
  sys_modules s2 !! package = None →
  world s1 = world s2 →
  (∀ sub, sub ∈ listed_submodules →
     sys_modules s1 !! qualname sub = sys_modules s2 !! qualname sub) →
  (import_package body1 attr_value s1).1
  = (import_package body2 attr_value s2).1 ∧
  sys_modules (import_package body1 attr_value s1).2 !! package
  = sys_modules (import_package body2 attr_value s2).2 !! package ∧
  world (import_package body1 attr_value s1).2
  = world (import_package body2 attr_value s2).2 ∧
  (∀ sub, sub ∈ listed_submodules →
     sys_modules (import_package body1 attr_value s1).2 !! qualname sub
     = sys_modules (import_package body2 attr_value s2).2 !! qualname sub).
Proof.
  intros Hbodies Hnew1 Hnew2 Hw Hs.
  destruct (import_package_simulates body1 body2 attr_value listed_submodules
              Hbodies init_py_submodules s1 s2) as [Ho (Hw' & Hp' & Hs')].
  { split_and!; [done|congruence|done]. }
  done.
Qed.

(** * Further properties of the load *)

Section CachedRuns.
Context {W : Type}.
Variable body : string → W → outcome namespace * W.
Implicit Types (s : state W) (st : from_import) (prog : list from_import).

(** After a run that returned, the submodule of every statement is cached
    and binds the names of the statement. *)
Lemma exec_module_leaves_cached prog s s' :
  exec_module body prog s = (Return tt, s') →
  ∀ st, st ∈ prog →
    ∃ m, sys_modules s' !! qualname (fi_module st) = Some m ∧
         defines_names m (fi_names st).
Proof.
  revert s. induction prog as [|st prog IH]; intros s Hrun st'.
  { by intros ?%elem_of_nil. }
  apply exec_module_cons_Return in Hrun as (s1 & Hst & Hrest).
  intros [->|Hin]%elem_of_cons; [|by eapply IH].
  apply exec_from_import_Return in Hst as (m & Hm & Hdef & _).
  exists m. split; [|done].
  pose proof (exec_module_cached body prog s1) as Hc.
  rewrite Hrest in Hc. apply Hc; [apply qualname_ne_package|done].
Qed.

Lemma import_names_modules sub m names s :
  keeps_modules [package] s (for_each (import_from sub m) names s).2.
Proof.
  apply (for_each_preserves (keeps_modules [package])). intros n _.
  apply import_from_modules.
Qed.

(** A statement whose submodule is cached and binds its names returns,
    runs no body and touches no cache entry but that of the package. *)
Lemma exec_from_import_cached_run st s m :
  sys_modules s !! qualname (fi_module st) = Some m →
  defines_names m (fi_names st) →
  ∃ s', exec_from_import body st s = (Return tt, s') ∧
        world s' = world s ∧ keeps_modules [package] s s'.
Proof.
  intros Hm Hdef.
  destruct (import_names_total (fi_module st) m (fi_names st)
              (log (EImport (fi_module st)) s) Hdef) as [s' Hnames].
  exists s'. split_and!.
  - unfold exec_from_import. apply bind_Return. eexists _, _.
    split; [|done]. apply import_submodule_Return. by left.
  - pose proof (import_names_world (fi_module st) m (fi_names st)
                  (log (EImport (fi_module st)) s)) as Hw.
    by rewrite Hnames in Hw.
  - pose proof (import_names_modules (fi_module st) m (fi_names st)
                  (log (EImport (fi_module st)) s)) as Hk.
    by rewrite Hnames in Hk.
Qed.

Lemma exec_module_cached_run prog s :
  (∀ st, st ∈ prog →
     ∃ m, sys_modules s !! qualname (fi_module st) = Some m ∧
          defines_names m (fi_names st)) →
  ∃ s', exec_module body prog s = (Return tt, s') ∧
        world s' = world s ∧ keeps_modules [package] s s'.
Proof.
  revert s. induction prog as [|st prog IH]; intros s Hall.
  { by exists s. }
  destruct (Hall st) as (m & Hm & Hdef); [by left|].
  destruct (exec_from_import_cached_run st s m Hm Hdef)
    as (s1 & Hst & Hw1 & Hk1).
  destruct (IH s1) as (s' & Hrest & Hw & Hk).
  { intros st' Hst'. destruct (Hall st') as (m' & Hm' & Hdef'); [by right|].
    exists m'. split; [|done]. rewrite Hk1; [done|].
    intros ?%list_elem_of_singleton. by eapply qualname_ne_package. }
  exists s'. split_and!.
  - apply exec_module_cons_Return. eauto.
  - congruence.
  - by etrans.
Qed.

(** The names loop stops at a name the module lacks, without a change to
    the world or to any cache entry but that of the package. *)
Lemma import_names_missing sub m pre n post s :
  defines_names m pre → m !! n = None →
  ∃ s', for_each (import_from sub m) (pre ++ n :: post) s
        = (Raise (CannotImportName n (qualname sub)), s') ∧
        world s' = world s ∧ keeps_modules [package] s s'.
Proof.
  intros Hdef Hn.
  destruct (import_names_total sub m pre s Hdef) as [s' Hpre].
  exists s'. split_and!.
  - apply import_names_Raise. by exists pre, n, post, s'.
  - pose proof (import_names_world sub m pre s) as Hw. by rewrite Hpre in Hw.
  - pose proof (import_names_modules sub m pre s) as Hk.
    by rewrite Hpre in Hk.
Qed.
End CachedRuns.

Section Further.
Context {W : Type}.
Variable body : string → W → outcome namespace * W.
Variable attr_value : string → value.
Implicit Types (s : state W) (st : from_import).

Lemma init_py_split_fresh pre st post :
  init_py = pre ++ st :: post → fi_module st ∉ submodules pre.
Proof.
  intros Hsplit.
  pose proof (NoDup_targets_submodules _ targets_init_py_NoDup) as Hnd.
  rewrite Hsplit in Hnd. unfold submodules in Hnd.
  rewrite fmap_app, fmap_cons in Hnd.
  apply NoDup_app in Hnd as (_ & Hdisj & _).
  intros Hin. apply (Hdisj _ Hin). by left.
Qed.

(** The cache entry of a submodule that a run does not import is the same
    before and after the run. *)
Lemma exec_module_other_submodule prog s sub :
  sub ∉ submodules prog →
  sys_modules (exec_module body prog s).2 !! qualname sub
  = sys_modules s !! qualname sub.
Proof.
  intros Hsub. apply exec_module_modules.
  intros [Heq|Hin]%elem_of_cons.
  - by apply qualname_ne_package in Heq.
  - apply list_elem_of_fmap in Hin as (sub' & ->%qualname_inj & Hin). done.
Qed.

(** X1.  A load returns the package whenever no statement can fail: every
    submodule that is cached binds the names imported from it, and the body
    of every submodule that is not cached returns, in whatever world it is
    run, a namespace that binds them. *)
Theorem load_returns s :
  (∀ st, st ∈ init_py → submodule_ready body st s) →
  (import_package body attr_value s).1 = Return (VModule package).
Proof.
  intros Hready.
  destruct (import_package body attr_value s) as [[v|e] s'] eqn:Hload; simpl.
  { by apply import_package_Return in Hload as [-> _]. }
  exfalso.
  apply import_package_Raise in Hload as (Hnew & s2 & Hrun & _).
  apply exec_module_Raise in Hrun as (pre & st & post & s1 & Hsplit & Hpre & Hst).
  pose proof (init_py_split_fresh pre st post Hsplit) as Hfresh.
  pose proof (exec_module_other_submodule pre (register attr_value s)
                (fi_module st) Hfresh) as Hsame.
  rewrite Hpre, register_submodule in Hsame; simpl in Hsame.
  specialize (Hready st). unfold submodule_ready in Hready.
  rewrite <-Hsame in Hready.
  assert (import_fails body st s1 e) as Hfail
    by (apply exec_from_import_fails; by rewrite Hst).
  assert (st ∈ init_py) as Hin
    by (rewrite Hsplit; apply elem_of_app; right; by left).
  destruct Hfail as [[Hnone Hbody]
                    |(m & ns1 & n & ns2 & Hm & Hnames & _ & Hn & _)].
  - rewrite Hnone in Hready.
    destruct (Hready Hin (world s1)) as (m & Hm & _). congruence.
  - assert (n ∈ fi_names st) as Hnin
      by (rewrite Hnames; apply elem_of_app; right; by left).
    destruct Hm as [Hm|[Hnone Hbody]].
    + rewrite Hm in Hready. destruct (Hready Hin n Hnin) as [v Hv].
      congruence.
    + rewrite Hnone in Hready.
      destruct (Hready Hin (world s1)) as (m' & Hm' & Hdef).
      assert (m' = m) as -> by congruence.
      destruct (Hdef n Hnin) as [v Hv]. congruence.
Qed.

Lemma elem_of_inits_of sub t : sub ∈ inits_of t ↔ EInit sub ∈ t.
Proof.
  unfold inits_of. rewrite list_elem_of_omap. split.
  - intros ([] & Hin & Heq); by simplify_eq.
  - intros Hin. by exists (EInit sub).
Qed.

(** X3.  A submodule that is in the module cache when a load begins is used
    as it is: the load does not run its body, its cache entry is the same
    afterwards, and every name the file imports from it is bound in the
    package to the object the cached module binds to it. *)
Theorem cached_submodule_reused s v s' st m :
  sys_modules s !! package = None →
  import_package body attr_value s = (Return v, s') →
  st ∈ init_py →
  sys_modules s !! qualname (fi_module st) = Some m →
  sys_modules s' !! qualname (fi_module st) = Some m ∧
  (∀ n, n ∈ fi_names st → getattr s' package n = m !! n) ∧
  ∃ t, trace s' = trace s ++ t ∧ EInit (fi_module st) ∉ t.
Proof.
  intros Hnew [_ [[[? Hold] _]|[_ Hrun]]]%import_package_Return Hst Hm;
    [congruence|].
  assert (sys_modules s' !! qualname (fi_module st) = Some m) as Hm'.
  { pose proof (exec_module_cached body init_py (register attr_value s))
      as Hc.
    rewrite Hrun in Hc. apply Hc; [apply qualname_ne_package|].
    by rewrite register_submodule. }
  split_and!; [done| |].
  - intros n Hn.
    destruct (exec_module_binds body init_py _ _ targets_init_py_NoDup
                (register_loaded attr_value s) Hrun (fi_module st) n)
      as (o & Hpkg & Hmod); [apply elem_of_origins; by exists st|].
    rewrite Hpkg, <-Hmod. unfold getattr. by rewrite Hm'.
  - apply exec_module_events in Hrun;
      [|apply NoDup_targets_submodules, targets_init_py_NoDup].
    eexists. split; [exact Hrun|].
    rewrite <-elem_of_inits_of, inits_of_module.
    intros [Hnone _]%list_elem_of_filter.
    rewrite register_submodule in Hnone. congruence.
Qed.

(** X4.  A load that raises leaves the package out of the module cache but
    not the submodules: the file splits at the statement that failed, and
    the submodules of the statements before it are cached afterwards and
    bind the names imported from them. *)
Theorem failed_load_keeps_submodules s e s' :
  import_package body attr_value s = (Raise e, s') →
  sys_modules s' !! package = None ∧
  ∃ pre st post, init_py = pre ++ st :: post ∧
    import_fails body st
      (exec_module body pre (register attr_value s)).2 e ∧
    (∀ st', st' ∈ pre →
       ∃ m, sys_modules s' !! qualname (fi_module st') = Some m ∧
            defines_names m (fi_names st')).
Proof.
  intros (Hnew & s2 & Hrun & ->)%import_package_Raise.
  split; [apply lookup_delete_eq|].
  apply exec_module_Raise in Hrun as (pre & st & post & s1 & Hsplit & Hpre & Hst).
  exists pre, st, post.
  pose proof (exec_from_import_cached body st s1) as Hc.
  rewrite Hst in Hc; simpl in Hc.
  split_and!; [done| |].
  - rewrite Hpre; simpl. apply exec_from_import_fails. by rewrite Hst.
  - intros st' Hst'.
    destruct (exec_module_leaves_cached body pre _ _ Hpre st' Hst')
      as (m & Hm & Hdef).
    exists m. split; [|done]. simpl.
    rewrite lookup_delete_ne by (intros Heq; by eapply qualname_ne_package).
    apply Hc; [apply qualname_ne_package|done].
Qed.

(** A load from a cache in which a statement's submodule lacks a name, and
    the submodules of the statements before it are ready, raises the import
    error of that name and leaves cache and world as they are. *)
Lemma import_package_missing_name s pre st post m ns1 n ns2 :
  sys_modules s !! package = None →
  init_py = pre ++ st :: post →
  (∀ st', st' ∈ pre →
     ∃ m', sys_modules s !! qualname (fi_module st') = Some m' ∧
           defines_names m' (fi_names st')) →
  sys_modules s !! qualname (fi_module st) = Some m →
  fi_names st = ns1 ++ n :: ns2 →
  defines_names m ns1 → m !! n = None →
  (import_package body attr_value s).1
  = Raise (CannotImportName n (qualname (fi_module st))) ∧
  sys_modules (import_package body attr_value s).2 = sys_modules s ∧
  world (import_package body attr_value s).2 = world s.
Proof.
  intros Hnew Hsplit Hpre Hm Hnames Hdef Hn.
  destruct (exec_module_cached_run body pre (register attr_value s))
    as (s1 & Hrun1 & Hw1 & Hk1).
  { intros st' Hst'. destruct (Hpre st' Hst') as (m' & Hm' & Hdef').
    exists m'. by rewrite register_submodule. }
  assert (∀ k, k ≠ package → k ∉ [package])
    as Hne by (by intros k ? ?%list_elem_of_singleton).
  destruct (import_names_missing (fi_module st) m ns1 n ns2
              (log (EImport (fi_module st)) s1) Hdef Hn)
    as (s2 & Hloop & Hw2 & Hk2).
  assert (exec_from_import body st s1
          = (Raise (CannotImportName n (qualname (fi_module st))), s2))
    as Hst.
  { unfold exec_from_import. apply bind_Raise. right. eexists _, _.
    split; [|by rewrite Hnames].
    apply import_submodule_Return. left. split; [|done].
    rewrite Hk1 by apply Hne, qualname_ne_package.
    by rewrite register_submodule. }
  assert (import_package body attr_value s
          = (Raise (CannotImportName n (qualname (fi_module st))),
             unregister s2)) as ->.
  { apply import_package_Raise. split; [done|]. exists s2. split; [|done].
    apply exec_module_Raise. by exists pre, st, post, s1. }
  split_and!; [done| |simpl; rewrite Hw2; simpl; by rewrite Hw1].
  apply map_eq. intros k. simpl.
  destruct (decide (k = package)) as [->|Hk].
  - by rewrite lookup_delete_eq.
  - rewrite lookup_delete_ne, Hk2, Hk1 by (done || by apply Hne).
    simpl. by rewrite lookup_insert_ne.
Qed.

(** X5.  When a cached submodule lacks a name the file imports from it, and
    the submodules of the statements before are cached with their names,
    every load fails alike: the first load and each repetition raise the
    import error of that name, run no body, and leave the module cache and
    the world exactly as they were. *)
Theorem missing_name_failure_repeats s pre st post m ns1 n ns2 k :
  sys_modules s !! package = None →
  init_py = pre ++ st :: post →
  (∀ st', st' ∈ pre →
     ∃ m', sys_modules s !! qualname (fi_module st') = Some m' ∧
           defines_names m' (fi_names st')) →
  sys_modules s !! qualname (fi_module st) = Some m →
  fi_names st = ns1 ++ n :: ns2 →
  defines_names m ns1 → m !! n = None →
  (reimport (import_package body attr_value) k
     (import_package body attr_value s)).1
  = Raise (CannotImportName n (qualname (fi_module st))) ∧
  sys_modules (reimport (import_package body attr_value) k
                 (import_package body attr_value s)).2 = sys_modules s ∧
  world (reimport (import_package body attr_value) k
           (import_package body attr_value s)).2 = world s.
Proof.
  intros Hnew Hsplit Hpre Hm Hnames Hdef Hn.
  induction k as [|k (_ & Hmods & Hworld)].
  { by eapply import_package_missing_name. }
  unfold reimport in *. simpl.
  destruct (import_package_missing_name
              (Nat.iter k (λ r, import_package body attr_value r.2)
                 (import_package body attr_value s)).2
              pre st post m ns1 n ns2) as (Ho & Hmods' & Hworld');
    rewrite ?Hmods; try done.
  split_and!; [done|congruence|congruence].
Qed.
End Further.

(** * The claims on concrete interpreters *)

Lemma reexport_identity_witness :
  sys_modules s0 !! package = None ∧
  ∀ n, n ∈ listed_names →
    ∃ sub o, (sub, n) ∈ origins init_py ∧ sub ∈ listed_submodules ∧
      getattr (import_package ex_body ex_attr s0).2 package n = Some o ∧
      getattr (import_package ex_body ex_attr s0).2 (qualname sub) n = Some o.
Proof.
  split; [reflexivity|].
  apply (reexport_identity ex_body ex_attr s0 (VModule package)).
  - reflexivity.
  - vm_compute. reflexivity.
Defined.

(** C2 as stated fails: in a new interpreter the load returns, and it has
    bound [_hubbard], which is not one of the 21 names. *)
Lemma only_listed_names_counterexample :
  (import_package ex_body ex_attr s0).1 = Return (VModule package) ∧
  ¬ binds_only listed_names (module_attrs ex_attr)
      (package_ns (import_package ex_body ex_attr s0).2).
Proof.
  split; [by vm_compute|]. intros Hclaim.
  assert ("_hubbard" ∉ listed_names) as Hno
    by (apply (bool_decide_unpack _); by vm_compute).
  apply Hno, Hclaim.
  - apply elem_of_dom. vm_compute. by eexists.
  - apply not_elem_of_dom. by vm_compute.
Qed.

Lemma only_listed_and_submodules_witness :
  binds_only (listed_names ++ listed_submodules) (module_attrs ex_attr)
    (package_ns (import_package ex_body ex_attr s0).2) ∧
  (∀ n, n ∈ dom (package_ns (import_package ex_body ex_attr s0).2) →
        is_private n = false → n ∈ listed_names).
Proof.
  apply (only_listed_and_submodules ex_body ex_attr s0 (VModule package)).
  - reflexivity.
  - vm_compute. reflexivity.
Defined.

(** C3 as stated fails: [_molecular_data] defines the public name
    [name_molecule], and the package does not bind it. *)
Lemma reexports_all_counterexample :
  (import_package ex_body ex_attr s0).1 = Return (VModule package) ∧
  ¬ reexports_all listed_submodules (import_package ex_body ex_attr s0).2.
Proof.
  split; [by vm_compute|]. intros Hclaim.
  specialize (Hclaim "_molecular_data" "name_molecule" (VObj 403)).
  assert (getattr (import_package ex_body ex_attr s0).2 package "name_molecule"
          = None) as Hnone by (by vm_compute).
  rewrite Hclaim in Hnone; [done| | |].
  - apply (bool_decide_unpack _). by vm_compute.
  - reflexivity.
  - by vm_compute.
Qed.

Lemma reexports_the_imported_witness :
  sys_modules s0 !! package = None ∧
  reexports_imported init_py (import_package ex_body ex_attr s0).2.
Proof.
  split; [reflexivity|].
  apply (reexports_the_imported ex_body ex_attr s0 (VModule package)).
  - reflexivity.
  - vm_compute. reflexivity.
Defined.

Lemma import_idempotent_witness :
  reimport (import_package ex_body ex_attr) 3
    (Return (VModule package), (import_package ex_body ex_attr s0).2)
  = (Return (VModule package), (import_package ex_body ex_attr s0).2).
Proof.
  apply (import_idempotent ex_body ex_attr s0).
  vm_compute. reflexivity.
Defined.

(** [_hubbard] lacks [fermi_hubbard]: the load raises the import error of
    that name. *)
Lemma failure_propagates_witness :
  (import_package broken_body ex_attr s0).1
  = Raise (CannotImportName "fermi_hubbard" (qualname "_hubbard")).
Proof.
  apply (proj2 (failure_propagates broken_body ex_attr s0 _)).
  split; [reflexivity|].
  exists (take 1 init_py), (FromImport "_hubbard" ["fermi_hubbard"]),
    (drop 2 init_py),
    (exec_module broken_body (take 1 init_py) (register ex_attr s0)).2.
  split_and!; [reflexivity|by vm_compute|].
  right. exists (defines 1 ["hubbard"]), [], "fermi_hubbard", [].
  split_and!; [right; split; by vm_compute|reflexivity| |by vm_compute|done].
  by intros n' ?%elem_of_nil.
Defined.

Lemma load_order_witness :
  sys_modules s0' !! package = None ∧
  ∃ t, trace (import_package ex_body ex_attr s0').2 = trace s0' ++ t ∧
    imports_of t = listed_submodules ∧
    binds_of t = listed_names ∧
    NoDup (inits_of t) ∧
    (∀ sub n, (sub, n) ∈ origins init_py →
       before (EImport sub) (EBind n) t ∧
       (is_Some (sys_modules s0' !! qualname sub) ∨
        before (EInit sub) (EBind n) t)) ∧
    trace (import_package ex_body ex_attr
             (import_package ex_body ex_attr s0').2).2
    = trace (import_package ex_body ex_attr s0').2.
Proof.
  split; [reflexivity|].
  apply (load_order ex_body ex_attr s0' (VModule package)).
  - reflexivity.
  - vm_compute. reflexivity.
Defined.

(** C7 as stated fails: with bodies that leave the world alone, the load
    still puts [_hubbard] in the module cache. *)
Lemma only_namespace_changes_counterexample :
  world (import_package quiet_body ex_attr s42).2 = world s42 ∧
  ¬ only_namespace_changes s42 (import_package quiet_body ex_attr s42).2.
Proof.
  split; [reflexivity|]. intros [_ Hclaim]. specialize (Hclaim (qualname "_hubbard")).
  assert (sys_modules s42 !! qualname "_hubbard" = None) as Hnone
    by reflexivity.
  rewrite <-Hclaim in Hnone; [|by vm_compute].
  vm_compute in Hnone. discriminate Hnone.
Qed.

(** The package is taken out of the cache after a load and loaded again:
    the six submodules are cached, no body runs, the world stays at 6. *)
Lemma load_frame_witness :
  (6 ≤ world (import_package ex_body ex_attr
                (unregister (import_package ex_body ex_attr s0).2)).2)%nat ∧
  world (import_package ex_body ex_attr
           (unregister (import_package ex_body ex_attr s0).2)).2
  = world (unregister (import_package ex_body ex_attr s0).2).
Proof.
  destruct (load_frame ex_body ex_attr (λ w, (6 ≤ w)%nat)
              (unregister (import_package ex_body ex_attr s0).2))
    as [HP Hsame].
  - intros sub w _ Hw. unfold ex_body. destruct (find _ _); simpl; lia.
  - vm_compute. lia.
  - split; [exact HP|]. apply Hsame.
    apply Forall_forall, (bool_decide_unpack _). by vm_compute.
Defined.

(** The last submodule raises after the five others have been imported
    and their names bound. *)
Lemma load_atomic_witness :
  import_package flaky_body ex_attr s0
  = (Raise (Exn 7),
     unregister
       (exec_module flaky_body init_py (register ex_attr s0)).2) ∧
  sys_modules
    (unregister (exec_module flaky_body init_py (register ex_attr s0)).2)
    !! package = None ∧
  (∀ n, getattr
          (unregister (exec_module flaky_body init_py (register ex_attr s0)).2)
          package n = None).
Proof.
  apply (load_atomic flaky_body ex_attr s0 (take 5 init_py)
           (FromImport "_plane_wave_hamiltonian"
              ["dual_basis_external_potential"; "fourier_transform";
               "inverse_fourier_transform"; "plane_wave_external_potential";
               "plane_wave_hamiltonian";
               "jordan_wigner_dual_basis_hamiltonian";
               "wigner_seitz_length_scale"])
           []
           (exec_module flaky_body (take 5 init_py) (register ex_attr s0)).2).
  - reflexivity.
  - reflexivity.
  - vm_compute. reflexivity.
  - vm_compute. reflexivity.
Defined.

Lemma load_deterministic_witness :
  (import_package ex_body ex_attr s0).1
  = (import_package other_body ex_attr s0').1 ∧
  sys_modules (import_package ex_body ex_attr s0).2 !! package
  = sys_modules (import_package other_body ex_attr s0').2 !! package ∧
  world (import_package ex_body ex_attr s0).2
  = world (import_package other_body ex_attr s0').2 ∧
  (∀ sub, sub ∈ listed_submodules →
     sys_modules (import_package ex_body ex_attr s0).2 !! qualname sub
     = sys_modules (import_package other_body ex_attr s0').2 !! qualname sub).
Proof.
  apply (load_deterministic ex_body other_body ex_attr s0 s0').
  - intros sub w Hsub. unfold other_body. by rewrite decide_True.
  - reflexivity.
  - reflexivity.
  - reflexivity.
  - apply Forall_forall, (bool_decide_unpack _). by vm_compute.
Defined.

(** C10 as stated fails: a first load raises in the last submodule and
    leaves the five others in the module cache; the next load returns, and
    [_chemical_series] is not an attribute of the package. *)
Lemma submodules_bound_counterexample :
  (import_package flaky_body ex_attr s0).1 = Raise (Exn 7) ∧
  (import_package flaky_body ex_attr
     (import_package flaky_body ex_attr s0).2).1
  = Return (VModule package) ∧
  ¬ submodules_bound listed_submodules
      (import_package flaky_body ex_attr
         (import_package flaky_body ex_attr s0).2).2.
Proof.
  split_and!; [by vm_compute..|]. intros Hclaim.
  specialize (Hclaim "_chemical_series").
  assert (getattr (import_package flaky_body ex_attr
                     (import_package flaky_body ex_attr s0).2).2
            package "_chemical_series" = None) as Hnone by (by vm_compute).
  rewrite Hclaim in Hnone; [done|].
  apply (bool_decide_unpack _). by vm_compute.
Qed.

Lemma submodule_attributes_and_wildcard_witness :
  (import_package flaky_body ex_attr s0).1 = Raise (Exn 7) ∧
  (∀ sub, sub ∈ listed_submodules →
     package_ns (import_package flaky_body ex_attr
                   (import_package flaky_body ex_attr s0).2).2 !! sub =
       match sys_modules (import_package flaky_body ex_attr s0).2
             !! qualname sub with
       | Some _ => None
       | None => Some (VModule (qualname sub))
       end) ∧
  (∀ n, n ∈ listed_names →
     is_Some (package_ns (import_package flaky_body ex_attr
                            (import_package flaky_body ex_attr s0).2).2
              !! n)) ∧
  wildcard_names
    (package_ns (import_package flaky_body ex_attr
                   (import_package flaky_body ex_attr s0).2).2)
  = Some (list_to_set listed_names).
Proof.
  split; [by vm_compute|].
  apply (submodule_attributes_and_wildcard flaky_body ex_attr
           (import_package flaky_body ex_attr s0).2 (VModule package)).
  - by vm_compute.
  - vm_compute. reflexivity.
Defined.

(** * The further properties on concrete interpreters *)

Lemma defines_names_decide m names :
  bool_decide (Forall (λ n, is_Some (m !! n)) names) = true →
  defines_names m names.
Proof.
  intros H%bool_decide_eq_true. unfold defines_names.
  by apply Forall_forall.
Qed.

Lemma load_returns_witness :
  (∀ st, st ∈ init_py → submodule_ready quiet_body st s42) ∧
  (import_package quiet_body ex_attr s42).1 = Return (VModule package).
Proof.
  assert (∀ st, st ∈ init_py → submodule_ready quiet_body st s42) as Hready.
  { apply Forall_forall. unfold init_py.
    repeat (apply Forall_cons_2;
            [unfold submodule_ready, s42; simpl sys_modules;
             rewrite lookup_empty; intros w; eexists;
             split; [reflexivity|];
             apply defines_names_decide; by vm_compute|]).
    by apply Forall_nil. }
  split; [exact Hready|].
  apply (load_returns quiet_body ex_attr s42 Hready).
Defined.

(** On the retry after the failure in the last submodule,
    [_chemical_series] is taken from the cache, with the
    objects its body built during the failed load. *)
Lemma cached_submodule_reused_witness :
  sys_modules (import_package flaky_body ex_attr s0).2
    !! qualname "_chemical_series"
  = Some (defines 0 ["make_atomic_ring"; "make_atomic_lattice"; "make_atom"]) ∧
  sys_modules (import_package flaky_body ex_attr
                 (import_package flaky_body ex_attr s0).2).2
    !! qualname "_chemical_series"
  = Some (defines 0 ["make_atomic_ring"; "make_atomic_lattice"; "make_atom"]) ∧
  (∀ n, n ∈ ["make_atomic_ring"; "make_atomic_lattice"; "make_atom"] →
     getattr (import_package flaky_body ex_attr
                (import_package flaky_body ex_attr s0).2).2 package n
     = defines 0 ["make_atomic_ring"; "make_atomic_lattice"; "make_atom"]
       !! n) ∧
  ∃ t, trace (import_package flaky_body ex_attr
                (import_package flaky_body ex_attr s0).2).2
       = trace (import_package flaky_body ex_attr s0).2 ++ t ∧
       EInit "_chemical_series" ∉ t.
Proof.
  assert (sys_modules (import_package flaky_body ex_attr s0).2
            !! qualname "_chemical_series"
          = Some (defines 0 ["make_atomic_ring"; "make_atomic_lattice";
                             "make_atom"])) as Hm
    by (vm_compute; reflexivity).
  split; [exact Hm|].
  apply (cached_submodule_reused flaky_body ex_attr
           (import_package flaky_body ex_attr s0).2 (VModule package) _
           (FromImport "_chemical_series"
              ["make_atomic_ring"; "make_atomic_lattice"; "make_atom"])).
  - by vm_compute.
  - vm_compute. reflexivity.
  - by left.
  - exact Hm.
Defined.

Lemma failed_load_keeps_submodules_witness :
  sys_modules (import_package flaky_body ex_attr s0).2 !! package = None ∧
  ∃ pre st post, init_py = pre ++ st :: post ∧
    import_fails flaky_body st
      (exec_module flaky_body pre (register ex_attr s0)).2 (Exn 7) ∧
    (∀ st', st' ∈ pre →
       ∃ m, sys_modules (import_package flaky_body ex_attr s0).2
              !! qualname (fi_module st') = Some m ∧
            defines_names m (fi_names st')).
Proof.
  apply (failed_load_keeps_submodules flaky_body ex_attr s0 (Exn 7)).
  vm_compute. reflexivity.
Defined.

(** After the load in which [_hubbard] was found to lack [fermi_hubbard],
    three more loads fail in the same way and change nothing. *)
Lemma missing_name_failure_repeats_witness :
  sys_modules (import_package broken_body ex_attr s0).2
    !! qualname "_hubbard" = Some (defines 1 ["hubbard"]) ∧
  (reimport (import_package broken_body ex_attr) 2
     (import_package broken_body ex_attr
        (import_package broken_body ex_attr s0).2)).1
  = Raise (CannotImportName "fermi_hubbard" (qualname "_hubbard")) ∧
  sys_modules
    (reimport (import_package broken_body ex_attr) 2
       (import_package broken_body ex_attr
          (import_package broken_body ex_attr s0).2)).2
  = sys_modules (import_package broken_body ex_attr s0).2 ∧
  world
    (reimport (import_package broken_body ex_attr) 2
       (import_package broken_body ex_attr
          (import_package broken_body ex_attr s0).2)).2
  = world (import_package broken_body ex_attr s0).2.
Proof.
  assert (sys_modules (import_package broken_body ex_attr s0).2
            !! qualname "_hubbard" = Some (defines 1 ["hubbard"])) as Hm
    by (vm_compute; reflexivity).
  split; [exact Hm|].
  apply (missing_name_failure_repeats broken_body ex_attr
           (import_package broken_body ex_attr s0).2
           (take 1 init_py) (FromImport "_hubbard" ["fermi_hubbard"])
           (drop 2 init_py) (defines 1 ["hubbard"]) [] "fermi_hubbard" [] 2).
  - by vm_compute.
  - reflexivity.
  - intros st' ->%list_elem_of_singleton. eexists. split.
    + vm_compute. reflexivity.
    + apply defines_names_decide. by vm_compute.
  - exact Hm.
  - reflexivity.
  - by intros n' ?%elem_of_nil.
  - by vm_compute.
Defined.
